(** * dynamodb_batching.py: batch reads and writes against DynamoDB

    A shallow embedding of [src/dynamodb_batching.py].  The program is glue
    code around the Boto3 SDK, so the SDK is an oracle: every SDK call takes
    the state of the outside world and gives back a reply and the next state.
    What the program does is recorded as a chronological trace of events (SDK
    calls with their replies, sleeps, log records, prints), and exceptions are
    a constructor of the result type. *)

From stdpp Require Import gmap strings list fin_maps.
From Stdlib Require Import ZArith.

Set Default Proof Using "Type".

(** ** Data *)

(** Attribute values are strings: every schema of the demo declares type 'S'. *)
Abbreviation Value := string (only parsing).
(** An item and a key are JSON-like objects: Python dicts with string keys. *)
Abbreviation Item := (gmap string string) (only parsing).
Abbreviation Key := (gmap string string) (only parsing).

(** The value of one table in RequestItems and in UnprocessedKeys:
    [{'Keys': [...]}]. *)
Record KeysAndAttributes := { Keys : list Key }.

Abbreviation RequestItems := (gmap string KeysAndAttributes) (only parsing).
Abbreviation Retrieved := (gmap string (list Item)) (only parsing).

(** The dict that [batch_get_item] returns.  Either entry can be absent. *)
Record Response := {
  Responses : option (gmap string (list Item));
  UnprocessedKeys : option (gmap string KeysAndAttributes)
}.

Record KeySchemaElement := { ks_AttributeName : string; ks_KeyType : string }.
Record AttributeDefinition := { ad_AttributeName : string; ad_AttributeType : string }.
Record Throughput := { ReadCapacityUnits : Z; WriteCapacityUnits : Z }.

(** The keyword arguments of [dynamodb.create_table]. *)
Record TableSpec := {
  TableName : string;
  KeySchema : list KeySchemaElement;
  AttributeDefinitions : list AttributeDefinition;
  ProvisionedThroughput : Throughput
}.

(** A Boto3 Table resource, with the attributes the program reads. *)
Record Table := {
  name : string;
  key_schema : list KeySchemaElement;
  attribute_definitions : list AttributeDefinition;
  provisioned_throughput : Throughput
}.

(** One entry of the [schema] argument of [create_table]:
    [{'name': .., 'key_type': .., 'type': ..}]. *)
Record SchemaEntry := { s_name : string; s_key_type : string; s_type : string }.

(** ** Exceptions and results *)

(** [ClientError] carries [error.response['Error']['Code']]. *)
Inductive exn :=
| ClientError (code : string)
| KeyError (key : string)
| IndexError.

(** The result of running a piece of the program.  [OutOfFuel] is the loop
    of [do_batch_get] running out of fuel, which it never does
    ([do_batch_get_terminates]). *)
Inductive result (A : Type) :=
| Ok (a : A)
| Raise (e : exn)
| OutOfFuel.
Arguments Ok {A} a.
Arguments Raise {A} e.
Arguments OutOfFuel {A}.

(** What an SDK call gives back: a value, or a ClientError with its code. *)
Inductive reply (A : Type) :=
| Reply (a : A)
| Fails (code : string).
Arguments Reply {A} a.
Arguments Fails {A} code.

(** ** Events *)

Inductive arg := ArgStr (s : string) | ArgInt (n : Z).

Inductive printed :=
| PrData (d : list Item)
| PrTable (t : Table)
| PrItem (i : Item)
| PrStr (s : string).

Inductive event :=
| CreateTable (spec : TableSpec) (r : reply Table)
| WaitUntilExists (t : Table) (r : reply unit)
| BatchGetItem (req : RequestItems) (r : reply Response)
| BatchWriterEnter (t : Table) (r : reply unit)
| PutItem (t : Table) (i : Item) (r : reply unit)
| DeleteItem (t : Table) (k : Key) (r : reply unit)
| BatchWriterExit (t : Table) (r : reply unit)
| Sleep (secs : Z)
| LogInfo (fmt : string) (args : list arg)
| LogException (fmt : string) (args : list arg)
| Print (p : printed).

(** The SDK as an oracle over the state of the outside world. *)
Record Boto3 (World : Type) := {
  dynamodb_create_table : TableSpec → World → reply Table * World;
  table_wait_until_exists : Table → World → reply unit * World;
  dynamodb_batch_get_item : RequestItems → World → reply Response * World;
  table_batch_writer : Table → World → reply unit * World;
  writer_put_item : Table → Item → World → reply unit * World;
  writer_delete_item : Table → Key → World → reply unit * World;
  writer_exit : Table → World → reply unit * World
}.
Arguments dynamodb_create_table {World}.
Arguments table_wait_until_exists {World}.
Arguments dynamodb_batch_get_item {World}.
Arguments table_batch_writer {World}.
Arguments writer_put_item {World}.
Arguments writer_delete_item {World}.
Arguments writer_exit {World}.

(** ** The monad of the program: world state, trace, exceptions *)

Definition M (World A : Type) : Type := World → result A * list event * World.

Definition ret {World A} (a : A) : M World A := λ w, (Ok a, [], w).

Definition bind {World A B} (m : M World A) (f : A → M World B) : M World B :=
  λ w, match m w with
       | (Ok a, t1, w1) =>
           match f a w1 with (r, t2, w2) => (r, t1 ++ t2, w2) end
       | (Raise e, t1, w1) => (Raise e, t1, w1)
       | (OutOfFuel, t1, w1) => (OutOfFuel, t1, w1)
       end.

Definition raise {World A} (e : exn) : M World A := λ w, (Raise e, [], w).
Definition out_of_fuel {World A} : M World A := λ w, (OutOfFuel, [], w).
Definition emit {World} (e : event) : M World unit := λ w, (Ok (), [e], w).

(** An SDK call: ask the oracle, record call and reply, raise on failure. *)
Definition sdk {World A} (op : World → reply A * World)
    (ev : reply A → event) : M World A :=
  λ w, match op w with
       | (Reply a, w1) => (Ok a, [ev (Reply a)], w1)
       | (Fails c, w1) => (Raise (ClientError c), [ev (Fails c)], w1)
       end.

(** [try: body  except ClientError as error: handler error]. *)
Definition try_except_ClientError {World A} (body : M World A)
    (handler : string → M World A) : M World A :=
  λ w, match body w with
       | (Raise (ClientError c), t1, w1) =>
           match handler c w1 with (r, t2, w2) => (r, t1 ++ t2, w2) end
       | other => other
       end.

(** [with mgr: body].  [enter] is [mgr.__enter__()]; [exit] is
    [mgr.__exit__(..)], which runs whether or not the body raised.  The
    BatchWriter's [__exit__] returns None, so an exception of the body
    propagates unless [__exit__] itself raises, in which case that one
    propagates. *)
Definition with_ {World A} (enter : M World unit) (exit : M World unit)
    (body : M World A) : M World A :=
  λ w, match enter w with
       | (Ok _, t0, w0) =>
           match body w0 with
           | (OutOfFuel, t1, w1) => (OutOfFuel, t0 ++ t1, w1)
           | (rb, t1, w1) =>
               match exit w1 with
               | (Ok _, t2, w2) => (rb, t0 ++ t1 ++ t2, w2)
               | (Raise e, t2, w2) => (Raise e, t0 ++ t1 ++ t2, w2)
               | (OutOfFuel, t2, w2) => (OutOfFuel, t0 ++ t1 ++ t2, w2)
               end
           end
       | (Raise e, t0, w0) => (Raise e, t0, w0)
       | (OutOfFuel, t0, w0) => (OutOfFuel, t0, w0)
       end.

(** [for x in xs: body x]. *)
Fixpoint for_ {World A} (xs : list A) (body : A → M World unit) : M World unit :=
  match xs with
  | [] => ret ()
  | x :: xs' => bind (body x) (λ _, for_ xs' body)
  end.

Declare Scope prog_scope.
Delimit Scope prog_scope with prog.
Notation "'let*' x ':=' m 'in' k" := (bind m (λ x, k))
  (at level 10, x name, m at level 100, k at level 200) : prog_scope.
Open Scope prog_scope.

Definition log_info {World} (fmt : string) (args : list arg) : M World unit :=
  emit (LogInfo fmt args).
Definition log_exception {World} (fmt : string) (args : list arg) : M World unit :=
  emit (LogException fmt args).
Definition sleep {World} (secs : Z) : M World unit := emit (Sleep secs).

(** ** The program *)

Definition MAX_GET_SIZE : Z := 100.
Definition max_tries : Z := 5.

(** [sum([len(batch_key['Keys']) for batch_key in batch_keys.values()])]:
    the number of keys of a request, over all its tables. *)
Definition total_keys (batch_keys : RequestItems) : nat :=
  sum_list ((λ kv, length (Keys kv.2)) <$> map_to_list batch_keys).

Definition unprocessed_count (batch_keys : RequestItems) : Z :=
  Z.of_nat (total_keys batch_keys).

(** [retrieved[key] += items]: a KeyError when [key] is not in [retrieved]. *)
Definition extend (retrieved : Retrieved) (key : string) (items : list Item)
    : result Retrieved :=
  match retrieved !! key with
  | Some old => Ok (<[key := old ++ items]> retrieved)
  | None => Raise (KeyError key)
  end.

(** [for key in responses: retrieved[key] += responses[key]] *)
Fixpoint collect_list (l : list (string * list Item)) (retrieved : Retrieved)
    : result Retrieved :=
  match l with
  | [] => Ok retrieved
  | (key, items) :: l' =>
      match extend retrieved key items with
      | Ok retrieved' => collect_list l' retrieved'
      | other => other
      end
  end.

(** [for key in response.get('Responses', []): retrieved[key] += response['Responses'][key]].
    The tables are visited in [map_to_list] order; the lists of distinct
    tables are independent, so the order only decides which table a
    KeyError names when several are foreign. *)
Definition collect (response : Response) (retrieved : Retrieved) : result Retrieved :=
  match Responses response with
  | Some responses => collect_list (map_to_list responses) retrieved
  | None => Ok retrieved
  end.

Definition lift {World A} (r : result A) : M World A := λ w, (r, [], w).

(** [[{attr: x[i]} for x in xs]]: the keys of one table of [get_batch_data].
    The elements are strings, so [x[i]] is the character at index [i], or an
    IndexError.  Strings are sequences of bytes here: the index is the
    character index of Python on ASCII keys, which are what the program
    passes. *)
Fixpoint index_keys (attr : string) (i : nat) (xs : list string)
    : result (list Key) :=
  match xs with
  | [] => Ok []
  | x :: xs' =>
      match String.get i x with
      | Some c =>
          match index_keys attr i xs' with
          | Ok ks => Ok (({[ attr := String c EmptyString ]} : gmap string string) :: ks)
          | other => other
          end
      | None => Raise IndexError
      end
  end.

(** The dict literal [batch_keys] of [get_batch_data]: the three entries are
    evaluated and stored in order, a later equal name replacing an earlier. *)
Definition get_batch_data_keys (trade_table : Table) (trade_list : list string)
    (entity_table : Table) (entity_list : list string)
    (aspect_table : Table) (aspect_list : list string) : result RequestItems :=
  match index_keys "notional" 5 trade_list with
  | Ok tk =>
      match index_keys "float_value" 6 entity_list with
      | Ok ek =>
          match index_keys "float_value" 6 aspect_list with
          | Ok ak =>
              Ok (<[name aspect_table := {| Keys := ak |}]>
                    (<[name entity_table := {| Keys := ek |}]>
                       (<[name trade_table := {| Keys := tk |}]> ∅)))
          | Raise e => Raise e
          | OutOfFuel => OutOfFuel
          end
      | Raise e => Raise e
      | OutOfFuel => OutOfFuel
      end
  | Raise e => Raise e
  | OutOfFuel => OutOfFuel
  end.

(** [[(x[attr]) for x in data]]: a KeyError when an item lacks [attr]. *)
Fixpoint attr_values (attr : string) (data : list Item) : result (list string) :=
  match data with
  | [] => Ok []
  | x :: data' =>
      match x !! attr with
      | Some v =>
          match attr_values attr data' with
          | Ok vs => Ok (v :: vs)
          | other => other
          end
      | None => Raise (KeyError attr)
      end
  end.

Definition expected_message : string :=
  "Got expected exception when trying to put duplicate records into the "
  +:+ "archive table.".

Definition unexpected_message : string :=
  "Got unexpected exception when trying to put duplicate records into "
  +:+ "the archive table.".

Section Program.
Context {World : Type} (boto3 : Boto3 World).

Definition batch_get_item (batch_keys : RequestItems) : M World Response :=
  sdk (dynamodb_batch_get_item boto3 batch_keys) (BatchGetItem batch_keys).

(** The [while tries < max_tries] loop of [do_batch_get], with the four
    local variables it updates.  [fuel] bounds the number of loop tests. *)
Fixpoint do_batch_get_loop (fuel : nat) (tries sleepy_time : Z)
    (batch_keys : RequestItems) (retrieved : Retrieved) : M World Retrieved :=
  match fuel with
  | O => out_of_fuel
  | S fuel' =>
      if (tries <? max_tries)%Z then
        let* response := batch_get_item batch_keys in
        let* retrieved := lift (collect response retrieved) in
        match UnprocessedKeys response with
        | None => raise (KeyError "UnprocessedKeys")
        | Some unprocessed =>
            if (0 <? Z.of_nat (size unprocessed))%Z then
              let batch_keys := unprocessed in
              let* _ := log_info "%s unprocessed keys returned. Sleep, then retry."
                                 [ArgInt (unprocessed_count batch_keys)] in
              let tries := (tries + 1)%Z in
              let* sleepy_time :=
                (if (tries <? max_tries)%Z then
                   let* _ := log_info "Sleeping for %s seconds." [ArgInt sleepy_time] in
                   let* _ := sleep sleepy_time in
                   ret (Z.min (sleepy_time * 2) 32)
                 else ret sleepy_time) in
              do_batch_get_loop fuel' tries sleepy_time batch_keys retrieved
            else ret retrieved
        end
      else ret retrieved
  end.

(** [do_batch_get(batch_keys)].  The loop test runs at most [max_tries + 1]
    times, which is the fuel given. *)
Definition do_batch_get (batch_keys : RequestItems) : M World Retrieved :=
  let retrieved : Retrieved := (λ _, []) <$> batch_keys in
  do_batch_get_loop (S (Z.to_nat max_tries)) 0 1 batch_keys retrieved.

(** [create_table(table_name, schema)] *)
Definition create_table_spec (table_name : string) (schema : list SchemaEntry)
    : TableSpec :=
  {| TableName := table_name;
     KeySchema :=
       (λ item, {| ks_AttributeName := s_name item;
                   ks_KeyType := s_key_type item |}) <$> schema;
     AttributeDefinitions :=
       (λ item, {| ad_AttributeName := s_name item;
                   ad_AttributeType := s_type item |}) <$> schema;
     ProvisionedThroughput :=
       {| ReadCapacityUnits := 10; WriteCapacityUnits := 10 |} |}.

Definition create_table (table_name : string) (schema : list SchemaEntry)
    : M World Table :=
  try_except_ClientError
    (let spec := create_table_spec table_name schema in
     let* table := sdk (dynamodb_create_table boto3 spec) (CreateTable spec) in
     let* _ := sdk (table_wait_until_exists boto3 table) (WaitUntilExists table) in
     let* _ := log_info "Created table %s." [ArgStr (name table)] in
     ret table)
    (λ code,
     let* _ := log_exception "Couldn't create TimeSeries table." [] in
     raise (ClientError code)).

(** [with table.batch_writer() as writer: body] *)
Definition with_batch_writer {A} (table : Table) (body : M World A) : M World A :=
  with_ (sdk (table_batch_writer boto3 table) (BatchWriterEnter table))
        (sdk (writer_exit boto3 table) (BatchWriterExit table))
        body.

Definition put_item (table : Table) (item : Item) : M World unit :=
  sdk (writer_put_item boto3 table item) (PutItem table item).

Definition delete_item (table : Table) (key : Key) : M World unit :=
  sdk (writer_delete_item boto3 table key) (DeleteItem table key).

(** [fill_table(table, table_data)] *)
Definition fill_table (table : Table) (table_data : list Item) : M World unit :=
  let* _ := emit (Print (PrData table_data)) in
  let* _ := emit (Print (PrStr "******** Table schema Begin****************")) in
  let* _ := emit (Print (PrTable table)) in
  let* _ := emit (Print (PrStr "******** Table schema End****************")) in
  let* _ := emit (Print (PrStr (name table))) in
  try_except_ClientError
    (let* _ := with_batch_writer table
                 (for_ table_data (λ item,
                    let* _ := put_item table item in
                    emit (Print (PrItem item)))) in
     log_info "Loaded data into table %s." [ArgStr (name table)])
    (λ code,
     let* _ := log_exception "Couldn't load data into table %s."
                             [ArgStr (name table)] in
     raise (ClientError code)).

(** [for response_table, response_items in retrieved.items(): logger.info(..)].
    The records come out in [map_to_list] order, where Python follows the
    insertion order of the dict: what is proved of them is up to their
    order. *)
Definition log_retrieved (retrieved : Retrieved) : M World unit :=
  for_ (map_to_list retrieved) (λ kv,
    log_info "Got %s items from %s."
             [ArgInt (Z.of_nat (length kv.2)); ArgStr kv.1]).


(** [get_batch_data(trade_table, trade_list, entity_table, entity_list,
    aspect_table, aspect_list)] *)
Definition get_batch_data (trade_table : Table) (trade_list : list string)
    (entity_table : Table) (entity_list : list string)
    (aspect_table : Table) (aspect_list : list string) : M World Retrieved :=
  let* batch_keys :=
    lift (get_batch_data_keys trade_table trade_list entity_table entity_list
                              aspect_table aspect_list) in
  try_except_ClientError
    (let* retrieved := do_batch_get batch_keys in
     let* _ := log_retrieved retrieved in
     ret retrieved)
    (λ code,
     let* _ := log_exception "Couldn't get items from %s and %s."
                 [ArgStr (name trade_table); ArgStr (name entity_table);
                  ArgStr (name aspect_table)] in
     raise (ClientError code)).

(** The keyword arguments of the [create_table] call of [archive_trades]. *)
Definition archive_spec (trade_table : Table) : TableSpec :=
  {| TableName := name trade_table +:+ "-archive";
     KeySchema := key_schema trade_table;
     AttributeDefinitions := attribute_definitions trade_table;
     ProvisionedThroughput :=
       {| ReadCapacityUnits := ReadCapacityUnits (provisioned_throughput trade_table);
          WriteCapacityUnits := WriteCapacityUnits (provisioned_throughput trade_table) |} |}.

(** First [try] block of [archive_trades]: create the archive table. *)
Definition archive_create (trade_table : Table) : M World Table :=
  try_except_ClientError
    (let spec := archive_spec trade_table in
     let* archive_table := sdk (dynamodb_create_table boto3 spec) (CreateTable spec) in
     let* _ := log_info "Table %s created, wait until exists."
                        [ArgStr (name archive_table)] in
     let* _ := sdk (table_wait_until_exists boto3 archive_table)
                   (WaitUntilExists archive_table) in
     ret archive_table)
    (λ code,
     let* _ := log_exception "Couldn't create archive table for %s."
                             [ArgStr (name trade_table)] in
     raise (ClientError code)).

(** The body shared by the second and third [try] blocks. *)
Definition archive_put_all (archive_table : Table) (trade_data : list Item)
    : M World unit :=
  let* _ := with_batch_writer archive_table
              (for_ trade_data (λ item, put_item archive_table item)) in
  log_info "Put trades into %s." [ArgStr (name archive_table)].

(** Second [try] block: the duplicate-key demonstration. *)
Definition archive_put_first (archive_table : Table) (trade_data : list Item)
    : M World unit :=
  try_except_ClientError
    (archive_put_all archive_table trade_data)
    (λ code,
     if String.eqb code "ValidationException" then
       log_info expected_message []
     else
       let* _ := log_exception unexpected_message [] in
       raise (ClientError code)).

(** Third [try] block. *)
Definition archive_put_second (archive_table : Table) (trade_data : list Item)
    : M World unit :=
  try_except_ClientError
    (archive_put_all archive_table trade_data)
    (λ code,
     let* _ := log_exception "Couldn't put trades into %s."
                             [ArgStr (name archive_table)] in
     raise (ClientError code)).

(** Fourth [try] block: delete the trades from the source table. *)
Definition archive_delete (trade_table : Table) (trade_data : list Item)
    : M World unit :=
  try_except_ClientError
    (let* _ := with_batch_writer trade_table
                 (for_ trade_data (λ item,
                    match item !! "notional" with
                    | Some v =>
                        delete_item trade_table
                          ({[ "notional" := v ]} : gmap string string)
                    | None => raise (KeyError "notional")
                    end)) in
     log_info "Deleted trades from %s." [ArgStr (name trade_table)])
    (λ code,
     let* _ := log_exception "Couldn't delete trades from %s."
                             [ArgStr (name trade_table)] in
     raise (ClientError code)).

(** The third and fourth [try] blocks and the [return]. *)
Definition archive_finish (trade_table archive_table : Table)
    (trade_data : list Item) : M World Table :=
  let* _ := archive_put_second archive_table trade_data in
  let* _ := archive_delete trade_table trade_data in
  ret archive_table.

(** [archive_trades(trade_table, trade_data)] *)
Definition archive_trades (trade_table : Table) (trade_data : list Item)
    : M World Table :=
  let* archive_table := archive_create trade_table in
  let* _ := archive_put_first archive_table trade_data in
  archive_finish trade_table archive_table trade_data.

End Program.

(** ** Observations on a trace *)

Definition result_of {World A} (out : result A * list event * World) : result A := out.1.1.
Definition trace_of {World A} (out : result A * list event * World) : list event := out.1.2.

(** The batch-get requests issued, in order. *)
Definition requests (tr : list event) : list RequestItems :=
  omap (λ e, match e with BatchGetItem req _ => Some req | _ => None end) tr.

(** What the service answered to them. *)
Definition replies (tr : list event) : list (reply Response) :=
  omap (λ e, match e with BatchGetItem _ r => Some r | _ => None end) tr.

Definition responses (tr : list event) : list Response :=
  omap (λ e, match e with BatchGetItem _ (Reply resp) => Some resp | _ => None end) tr.

(** The durations passed to [time.sleep], in order. *)
Definition sleeps (tr : list event) : list Z :=
  omap (λ e, match e with Sleep secs => Some secs | _ => None end) tr.

(** The items a response lists under a table name. *)
Definition returned_under (table : string) (resp : Response) : list Item :=
  default [] (Responses resp ≫= (.!! table)).

(** [n] durations starting at [sleepy_time], each the minimum of twice the
    previous one and 32. *)
Fixpoint backoff (n : nat) (sleepy_time : Z) : list Z :=
  match n with
  | O => []
  | S n' => sleepy_time :: backoff n' (Z.min (sleepy_time * 2) 32)
  end.

(** The events that follow the [n]-th batch-get request of a trace
    (the whole trace for [n = 0]); [None] when there are fewer requests. *)
Fixpoint after_request (n : nat) (tr : list event) : option (list event) :=
  match tr with
  | [] => match n with O => Some [] | S _ => None end
  | e :: tr' =>
      match n with
      | O => Some tr
      | S n' =>
          match e with
          | BatchGetItem _ _ => after_request n' tr'
          | _ => after_request n tr'
          end
      end
  end.

(** The events of the retry branch of one iteration, and the [sleepy_time]
    the next iteration starts with. *)
Definition retry_events (tries sleepy_time : Z) (unprocessed : RequestItems)
    : list event :=
  LogInfo "%s unprocessed keys returned. Sleep, then retry."
          [ArgInt (unprocessed_count unprocessed)]
  :: (if (tries + 1 <? max_tries)%Z
      then [LogInfo "Sleeping for %s seconds." [ArgInt sleepy_time];
            Sleep sleepy_time]
      else []).
Global Arguments retry_events : simpl never.

Definition next_sleepy_time (tries sleepy_time : Z) : Z :=
  if (tries + 1 <? max_tries)%Z then Z.min (sleepy_time * 2) 32 else sleepy_time.

(** The table names of a response's Responses entry are among [tables]. *)
Definition names_within (tables : gset string) (resp : Response) : bool :=
  match Responses resp with
  | Some rs => bool_decide (dom rs ⊆ tables)
  | None => true
  end.

(** A reply [do_batch_get] can digest: a response that names only requested
    tables and has an UnprocessedKeys entry. *)
Definition digestible (tables : gset string) (r : reply Response) : bool :=
  match r with
  | Reply resp =>
      names_within tables resp && bool_decide (is_Some (UnprocessedKeys resp))
  | Fails _ => false
  end.

(** A response that reports at least one unprocessed key. *)
Definition reports_unprocessed (r : reply Response) : bool :=
  match r with
  | Reply resp =>
      match UnprocessedKeys resp with
      | Some unprocessed => (0 <? unprocessed_count unprocessed)%Z
      | None => false
      end
  | Fails _ => false
  end.

(** ** A scripted service, to run the program on concrete inputs *)

Definition table_of_spec (spec : TableSpec) : Table :=
  {| name := TableName spec;
     key_schema := KeySchema spec;
     attribute_definitions := AttributeDefinitions spec;
     provisioned_throughput := ProvisionedThroughput spec |}.

(** The world is the number of SDK calls made so far.  The call numbered [n]
    fails with code [c] when [fail n = Some c]; otherwise it succeeds, a
    batch get with the response [answer n]. *)
Definition scripted_call {A} (fail : nat → option string) (a : A) (w : nat)
    : reply A * nat :=
  (match fail w with Some c => Fails c | None => Reply a end, S w).

Definition scripted (fail : nat → option string) (answer : nat → Response)
    : Boto3 nat :=
  {| dynamodb_create_table := λ spec, scripted_call fail (table_of_spec spec);
     table_wait_until_exists := λ _, scripted_call fail ();
     dynamodb_batch_get_item := λ _ w, scripted_call fail (answer w) w;
     table_batch_writer := λ _, scripted_call fail ();
     writer_put_item := λ _ _, scripted_call fail ();
     writer_delete_item := λ _ _, scripted_call fail ();
     writer_exit := λ _, scripted_call fail () |}.

Definition never_fails : nat → option string := λ _, None.

(** The SDK call numbered [n] fails with [code], every other one succeeds. *)
Definition failing_at (n : nat) (code : string) : nat → option string :=
  λ w, if Nat.eqb w n then Some code else None.

(** A service that answers every batch get with the same response. *)
Definition answering (resp : Response) : Boto3 nat :=
  scripted never_fails (λ _, resp).

Definition trade (k : string) : gmap string string := {[ "notional" := k ]}.
Definition entity (k : string) : gmap string string := {[ "float_value" := k ]}.

Definition demo_keys : gmap string KeysAndAttributes :=
  {[ "trades" := {| Keys := [trade "a"; trade "b"] |};
     "entities" := {| Keys := [entity "x"] |} ]}.

(** One trade retrieved, everything else reported as unprocessed. *)
Definition busy_response : Response :=
  {| Responses := Some {[ "trades" := [trade "a"] ]};
     UnprocessedKeys :=
       Some {[ "trades" := {| Keys := [trade "b"] |};
               "entities" := {| Keys := [entity "x"] |} ]} |}.

(** Items of two tables in one response, one trade left for a second round. *)
Definition first_round : Response :=
  {| Responses := Some {[ "trades" := [trade "a"]; "entities" := [entity "x"] ]};
     UnprocessedKeys := Some {[ "trades" := {| Keys := [trade "b"] |} ]} |}.

Definition second_round : Response :=
  {| Responses := Some {[ "trades" := [trade "b"] ]};
     UnprocessedKeys := Some ∅ |}.

Definition two_rounds : Boto3 nat :=
  scripted never_fails (λ n, match n with O => first_round | S _ => second_round end).

(** A response that says everything in [retrieved] was retrieved and nothing
    is left. *)
Definition complete_with (retrieved : Retrieved) : Response :=
  {| Responses := Some retrieved; UnprocessedKeys := Some ∅ |}.

(** A response without a Responses entry. *)
Definition bare_response (unprocessed : option RequestItems) : Response :=
  {| Responses := None; UnprocessedKeys := unprocessed |}.

(** A response that reports an unprocessed key and lists items under a
    table nobody asked for. *)
Definition foreign_busy_response : Response :=
  {| Responses := Some {[ "other" := [trade "z"] ]};
     UnprocessedKeys := Some {[ "trades" := {| Keys := [trade "b"] |} ]} |}.

(** A response whose UnprocessedKeys has an entry for a table, with an
    empty list of keys. *)
Definition empty_entry_response : Response :=
  {| Responses := Some ∅;
     UnprocessedKeys := Some {[ "trades" := {| Keys := [] |} ]} |}.

(** A complete response that lists items under two tables, one of them not
    requested. *)
Definition foreign_table_response : Response :=
  complete_with {[ "trades" := [trade "a"]; "other" := [trade "z"] ]}.

(** ** Observations for the error handling and the archive workflow *)

Definition failure {A} (r : reply A) : option string :=
  match r with Fails c => Some c | Reply _ => None end.

(** The error code of an SDK call that failed. *)
Definition sdk_failure (e : event) : option string :=
  match e with
  | CreateTable _ r => failure r
  | WaitUntilExists _ r => failure r
  | BatchGetItem _ r => failure r
  | BatchWriterEnter _ r => failure r
  | PutItem _ _ r => failure r
  | DeleteItem _ _ r => failure r
  | BatchWriterExit _ r => failure r
  | Sleep _ | LogInfo _ _ | LogException _ _ | Print _ => None
  end.

(** The codes of the ClientErrors the SDK raised during a run, in order. *)
Definition sdk_failures (tr : list event) : list string := omap sdk_failure tr.


(** A run passes vendor errors on: it raises a ClientError exactly when an
    SDK call failed, and then with the code of the last failure. *)
Definition faithful {World A} (out : result A * list event * World) : Prop :=
  match result_of out with
  | Raise (ClientError c) => last (sdk_failures (trace_of out)) = Some c
  | _ => sdk_failures (trace_of out) = []
  end.


(** Every run of a computation is faithful. *)
Definition propagates {World A} (m : M World A) : Prop := ∀ w, faithful (m w).

(** An SDK call returns or raises a ClientError, nothing else. *)
Definition vendor_only {World A} (m : M World A) : Prop :=
  ∀ w, match result_of (m w) with
       | Ok _ | Raise (ClientError _) => True
       | _ => False
       end.

(** The delete requests of a trace. *)
Definition deletes (tr : list event) : list (Table * Key) :=
  omap (λ e, match e with DeleteItem t k _ => Some (t, k) | _ => None end) tr.

(** No run of a computation issues a delete request. *)
Definition never_deletes {World A} (m : M World A) : Prop :=
  ∀ w, deletes (trace_of (m w)) = [].

(** The events of a batch writer block in which every call succeeds. *)
Definition put_events (table : Table) (items : list Item) : list event :=
  BatchWriterEnter table (Reply ())
  :: ((λ item, PutItem table item (Reply ())) <$> items)
  ++ [BatchWriterExit table (Reply ())].

Definition delete_events (table : Table) (values : list string) : list event :=
  BatchWriterEnter table (Reply ())
  :: ((λ v, DeleteItem table ({[ "notional" := v ]} : gmap string string) (Reply ()))
        <$> values)
  ++ [BatchWriterExit table (Reply ())].

(** A table resource of the given name, keyed by 'notional'. *)
Definition demo_table (n : string) : Table :=
  {| name := n;
     key_schema := [{| ks_AttributeName := "notional"; ks_KeyType := "HASH" |}];
     attribute_definitions :=
       [{| ad_AttributeName := "notional"; ad_AttributeType := "S" |}];
     provisioned_throughput :=
       {| ReadCapacityUnits := 10; WriteCapacityUnits := 10 |} |}.

(** ** Further observations *)

(** The keys a response asks to retry. *)
Definition unprocessed_of (resp : Response) : RequestItems :=
  default ∅ (UnprocessedKeys resp).

(** The put requests of a trace, with the table each went to. *)
Definition puts (tr : list event) : list (Table * Item) :=
  omap (λ e, match e with PutItem t i _ => Some (t, i) | _ => None end) tr.

(** The messages passed to [logger.exception]. *)
Definition exception_logs (tr : list event) : list string :=
  omap (λ e, match e with LogException fmt _ => Some fmt | _ => None end) tr.

(** The arguments of the "Got %s items from %s." records. *)
Definition got_logs (tr : list event) : list (list arg) :=
  omap (λ e, match e with
             | LogInfo fmt args =>
                 if String.eqb fmt "Got %s items from %s." then Some args else None
             | _ => None
             end) tr.

(** SDK calls other than [batch_get_item]. *)
Definition other_call (e : event) : option event :=
  match e with
  | CreateTable _ _ | WaitUntilExists _ _ | BatchWriterEnter _ _
  | PutItem _ _ _ | DeleteItem _ _ _ | BatchWriterExit _ _ => Some e
  | BatchGetItem _ _ | Sleep _ | LogInfo _ _ | LogException _ _ | Print _ => None
  end.

Definition other_calls (tr : list event) : list event := omap other_call tr.

(** The batch writers a trace opens, and the ones it closes. *)
Definition opened (tr : list event) : list Table :=
  omap (λ e, match e with BatchWriterEnter t (Reply _) => Some t | _ => None end) tr.

Definition closed (tr : list event) : list Table :=
  omap (λ e, match e with BatchWriterExit t _ => Some t | _ => None end) tr.

(** No run of a computation has an event that [f] selects. *)
Definition omits {World A B} (f : event → option B) (m : M World A) : Prop :=
  ∀ w, omap f (trace_of (m w)) = [].

(** How many [logger.exception] records a run should leave: one when it
    raises a ClientError, none otherwise. *)
Definition exception_log_count {World A} (out : result A * list event * World) : nat :=
  match result_of out with
  | Raise (ClientError _) => 1
  | _ => 0
  end.

(** A run leaves exactly the [logger.exception] records it should. *)
Definition logged_once {World A} (out : result A * list event * World) : Prop :=
  length (exception_logs (trace_of out)) = exception_log_count out.

(** Every batch writer a run opens, it closes, in the same order. *)
Definition balanced {World A} (m : M World A) : Prop :=
  ∀ w, closed (trace_of (m w)) = opened (trace_of (m w)).

(** No run of a computation runs out of fuel. *)
Definition fuel_free {World A} (m : M World A) : Prop :=
  ∀ w, result_of (m w) ≠ OutOfFuel.

(** In every run, the events that [f] selects satisfy [P]. *)
Definition always {World A B} (f : event → option B) (P : list B → Prop)
    (m : M World A) : Prop :=
  ∀ w, P (omap f (trace_of (m w))).

(** The put and delete requests of a trace, each with its reply. *)
Definition put_calls (tr : list event) : list (Table * Item * reply unit) :=
  omap (λ e, match e with PutItem t i r => Some (t, i, r) | _ => None end) tr.

Definition delete_calls (tr : list event) : list (Table * Key * reply unit) :=
  omap (λ e, match e with DeleteItem t k r => Some (t, k, r) | _ => None end) tr.

(** The [calls] go through [planned] in order, every call succeeds except
    possibly the last one, and nothing is called after a failure. *)
Definition stops_at_failure {A} (planned : list A) (calls : list (A * reply unit))
    : Prop :=
  ∃ made rest,
    planned = made ++ rest ∧
    (calls = (λ x, (x, Reply ())) <$> made ∨
     ∃ x rest' code,
       rest = x :: rest' ∧
       calls = ((λ x, (x, Reply ())) <$> made) ++ [(x, Fails code)]).

(** The answers of the service in a retry dialogue of at most [n] rounds:
    to [keys] first, then to the UnprocessedKeys of each answer, for as
    long as that mapping has an entry.  A failure, or an answer without
    UnprocessedKeys, ends the dialogue. *)
Fixpoint dialogue {World} (boto3 : Boto3 World) (n : nat) (keys : RequestItems)
    (w : World) : list (reply Response) :=
  match n with
  | O => []
  | S n' =>
      match dynamodb_batch_get_item boto3 keys w with
      | (Reply resp, w1) =>
          Reply resp ::
          match UnprocessedKeys resp with
          | Some unprocessed =>
              match size unprocessed with
              | O => []
              | S _ => dialogue boto3 n' unprocessed w1
              end
          | None => []
          end
      | (Fails code, _) => [Fails code]
      end
  end.

(** The responses among some replies. *)
Definition answered (rs : list (reply Response)) : list Response :=
  omap (λ r, match r with Reply resp => Some resp | Fails _ => None end) rs.

(** The keys [archive_trades] may delete: those of the items of
    [trade_data], up to the first item without a 'notional' entry. *)
Fixpoint delete_keys (trade_data : list Item) : list Key :=
  match trade_data with
  | [] => []
  | item :: rest =>
      match item !! "notional" with
      | Some v => ({[ "notional" := v ]} : gmap string string) :: delete_keys rest
      | None => []
      end
  end.

(** What [fill_table] does for one item when the put succeeds. *)
Definition fill_events (table : Table) (item : Item) : list event :=
  [PutItem table item (Reply ()); Print (PrItem item)].

(** The five prints that open [fill_table]. *)
Definition fill_header (table : Table) (table_data : list Item) : list event :=
  [Print (PrData table_data);
   Print (PrStr "******** Table schema Begin****************");
   Print (PrTable table);
   Print (PrStr "******** Table schema End****************");
   Print (PrStr (name table))].

(** Every string of the list has a character at index [i]. *)
Definition indexable (i : nat) (xs : list string) : bool :=
  forallb (λ x, i <? String.length x) xs.

(** ** The retry loop of [do_batch_get] *)

Section Loop.
Context {World : Type} (boto3 : Boto3 World).

(** One unfolding of the loop, by cases on what the service answers. *)
Lemma do_batch_get_loop_unfold fuel tries sleepy_time
    (batch_keys : gmap string KeysAndAttributes)
    (retrieved : gmap string (list (gmap string string))) w :
  do_batch_get_loop boto3 (S fuel) tries sleepy_time batch_keys retrieved w =
  if (tries <? max_tries)%Z then
    match dynamodb_batch_get_item boto3 batch_keys w with
    | (Fails c, w1) =>
        (Raise (ClientError c), [BatchGetItem batch_keys (Fails c)], w1)
    | (Reply resp, w1) =>
        let ev := BatchGetItem batch_keys (Reply resp) in
        match collect resp retrieved with
        | Ok retrieved1 =>
            match UnprocessedKeys resp with
            | None => (Raise (KeyError "UnprocessedKeys"), [ev], w1)
            | Some unprocessed =>
                if (0 <? Z.of_nat (size unprocessed))%Z then
                  match do_batch_get_loop boto3 fuel (tries + 1)
                          (next_sleepy_time tries sleepy_time)
                          unprocessed retrieved1 w1 with
                  | (r, tr, w2) =>
                      (r, ev :: retry_events tries sleepy_time unprocessed ++ tr, w2)
                  end
                else (Ok retrieved1, [ev], w1)
            end
        | Raise e => (Raise e, [ev], w1)
        | OutOfFuel => (OutOfFuel, [ev], w1)
        end
    end
  else (Ok retrieved, [], w).
Proof.
  cbn [do_batch_get_loop]. destruct (tries <? max_tries)%Z; [|done].
  unfold bind at 1, batch_get_item, sdk.
  destruct (dynamodb_batch_get_item boto3 batch_keys w) as [[resp|c] w1]; [|done].
  unfold bind at 1, lift. destruct (collect resp retrieved) as [retrieved1| |]; try done.
  destruct (UnprocessedKeys resp) as [unprocessed|]; [|done].
  destruct (0 <? Z.of_nat (size unprocessed))%Z; [|done].
  unfold retry_events, next_sleepy_time, bind, log_info, sleep, emit, ret.
  destruct (tries + 1 <? max_tries)%Z; cbn;
    destruct (do_batch_get_loop _ _ _ _ _ _ _) as [[r tr] w2]; done.
Qed.

End Loop.

(** ** Merging a response into the accumulator *)

Lemma extend_dom (retrieved retrieved' : gmap string (list (gmap string string)))
    key items :
  extend retrieved key items = Ok retrieved' → dom retrieved' = dom retrieved.
Proof.
  unfold extend. destruct (retrieved !! key) as [old|] eqn:Hk; [|done].
  intros [= <-]. by apply dom_insert_lookup_L.
Qed.

Lemma collect_list_dom l (retrieved retrieved' : gmap string (list (gmap string string))) :
  collect_list l retrieved = Ok retrieved' → dom retrieved' = dom retrieved.
Proof.
  revert retrieved. induction l as [|[key items] l IH]; intros retrieved; cbn.
  - by intros [= <-].
  - destruct (extend retrieved key items) as [r1| |] eqn:He; try done.
    intros H. rewrite (IH _ H). by eapply extend_dom.
Qed.

Lemma collect_list_not_out_of_fuel l
    (retrieved : gmap string (list (gmap string string))) :
  collect_list l retrieved ≠ OutOfFuel.
Proof.
  revert retrieved. induction l as [|[key items] l IH]; intros retrieved; cbn; [done|].
  unfold extend. destruct (retrieved !! key); [apply IH|done].
Qed.

(** The merge goes through exactly when every listed table is a key of the
    accumulator; otherwise it stops with a KeyError. *)
Lemma collect_list_Ok l (retrieved : gmap string (list (gmap string string))) :
  (∀ k, k ∈ l.*1 → k ∈ dom retrieved) →
  ∃ retrieved', collect_list l retrieved = Ok retrieved'.
Proof.
  revert retrieved. induction l as [|[key items] l IH]; intros retrieved Hin; cbn.
  - by eexists.
  - unfold extend.
    destruct (retrieved !! key) as [old|] eqn:Hk.
    + apply IH. intros k Hk'. rewrite dom_insert_lookup_L by done.
      apply Hin. cbn. by right.
    + exfalso. apply (not_elem_of_dom retrieved key); [done|].
      apply Hin. cbn. by left.
Qed.

Lemma collect_list_Ok_inv l
    (retrieved retrieved' : gmap string (list (gmap string string))) :
  collect_list l retrieved = Ok retrieved' → ∀ k, k ∈ l.*1 → k ∈ dom retrieved.
Proof.
  revert retrieved. induction l as [|[key items] l IH]; intros retrieved; cbn.
  - intros _ k Hk. by apply elem_of_nil in Hk.
  - destruct (extend retrieved key items) as [r1| |] eqn:He; try done.
    intros H k [->|Hk]%elem_of_cons.
    + unfold extend in He. apply elem_of_dom.
      destruct (retrieved !! key); [by eexists|done].
    + rewrite <- (extend_dom _ _ _ _ He). by eapply IH.
Qed.

Lemma collect_list_lookup l
    (retrieved retrieved' : gmap string (list (gmap string string))) t :
  NoDup l.*1 →
  collect_list l retrieved = Ok retrieved' →
  retrieved' !! t =
    (λ old, old ++ default [] ((list_to_map l : gmap string (list (gmap string string))) !! t))
      <$> retrieved !! t.
Proof.
  revert retrieved. induction l as [|[key items] l IH]; intros retrieved Hnd; cbn.
  - intros [= <-]. rewrite lookup_empty. cbn.
    destruct (retrieved !! t); cbn; [by rewrite app_nil_r|done].
  - apply NoDup_cons in Hnd as [Hkey Hnd].
    unfold extend. destruct (retrieved !! key) as [old|] eqn:Hk; [|done].
    intros H. rewrite (IH _ Hnd H).
    destruct (decide (key = t)) as [->|Hne].
    + rewrite !lookup_insert_eq, Hk. cbn.
      rewrite (not_elem_of_list_to_map_1 l t) by done. cbn.
      by rewrite app_nil_r.
    + by rewrite !lookup_insert_ne by done.
Qed.

Lemma collect_dom resp (retrieved retrieved' : gmap string (list (gmap string string))) :
  collect resp retrieved = Ok retrieved' → dom retrieved' = dom retrieved.
Proof.
  unfold collect. destruct (Responses resp); [apply collect_list_dom|by intros [= <-]].
Qed.

Lemma collect_not_out_of_fuel resp
    (retrieved : gmap string (list (gmap string string))) :
  collect resp retrieved ≠ OutOfFuel.
Proof.
  unfold collect. destruct (Responses resp); [apply collect_list_not_out_of_fuel|done].
Qed.

Lemma collect_Ok resp (retrieved : gmap string (list (gmap string string))) :
  names_within (dom retrieved) resp = true →
  ∃ retrieved', collect resp retrieved = Ok retrieved'.
Proof.
  unfold names_within, collect. destruct (Responses resp) as [rs|]; [|by eexists].
  intros Hsub%bool_decide_eq_true. apply collect_list_Ok.
  intros k [[k' items] [-> Hin]]%list_elem_of_fmap.
  apply Hsub, elem_of_dom. exists items. by apply elem_of_map_to_list.
Qed.

Lemma collect_Ok_inv resp (retrieved retrieved' : gmap string (list (gmap string string))) :
  collect resp retrieved = Ok retrieved' →
  names_within (dom retrieved) resp = true.
Proof.
  unfold names_within, collect. destruct (Responses resp) as [rs|]; [|done].
  intros H. apply bool_decide_eq_true. intros k [items Hk]%elem_of_dom.
  eapply collect_list_Ok_inv; [done|].
  apply list_elem_of_fmap. exists (k, items). split; [done|].
  by apply elem_of_map_to_list.
Qed.

(** Each table's list grows by exactly the items listed under that table. *)
Lemma collect_lookup resp (retrieved retrieved' : gmap string (list (gmap string string))) t :
  collect resp retrieved = Ok retrieved' →
  retrieved' !! t = (λ old, old ++ returned_under t resp) <$> retrieved !! t.
Proof.
  unfold collect, returned_under. destruct (Responses resp) as [rs|]; cbn.
  - intros H. rewrite (collect_list_lookup _ _ _ t (NoDup_fst_map_to_list rs) H).
    by rewrite list_to_map_to_list.
  - intros [= <-]. destruct (retrieved !! t); cbn; [by rewrite app_nil_r|done].
Qed.

Lemma triple_inv {A B C} (a a' : A) (b b' : B) (c c' : C) :
  (a, b, c) = (a', b', c') → a = a' ∧ b = b' ∧ c = c'.
Proof. by intros [= -> -> ->]. Qed.

Lemma concat_fmap_nil {A B} (f : A → list B) (l : list A) :
  Forall (λ x, f x = []) l → concat (f <$> l) = [].
Proof. induction 1 as [|x l Hx _ IH]; [done|]. cbn. by rewrite Hx, IH. Qed.

Lemma unprocessed_count_empty : unprocessed_count ∅ = 0%Z.
Proof. unfold unprocessed_count, total_keys. by rewrite map_to_list_empty. Qed.

Lemma unprocessed_count_pos (unprocessed : gmap string KeysAndAttributes) :
  (0 < unprocessed_count unprocessed)%Z → (0 <? Z.of_nat (size unprocessed))%Z = true.
Proof.
  intros Hpos. apply Z.ltb_lt.
  destruct (decide (size unprocessed = 0)) as [Hz|Hnz]; [|lia].
  apply map_size_empty_iff in Hz. subst unprocessed.
  rewrite unprocessed_count_empty in Hpos. lia.
Qed.

Section LoopFacts.
Context {World : Type} (boto3 : Boto3 World).

Lemma requests_retry tries s u tr :
  requests (retry_events tries s u ++ tr) = requests tr.
Proof. unfold retry_events. by destruct (tries + 1 <? max_tries)%Z. Qed.

Lemma replies_retry tries s u tr :
  replies (retry_events tries s u ++ tr) = replies tr.
Proof. unfold retry_events. by destruct (tries + 1 <? max_tries)%Z. Qed.

Lemma responses_retry tries s u tr :
  responses (retry_events tries s u ++ tr) = responses tr.
Proof. unfold retry_events. by destruct (tries + 1 <? max_tries)%Z. Qed.

Lemma sleeps_retry tries s u tr :
  sleeps (retry_events tries s u ++ tr) =
  (if (tries + 1 <? max_tries)%Z then [s] else []) ++ sleeps tr.
Proof. unfold retry_events. by destruct (tries + 1 <? max_tries)%Z. Qed.

Lemma observe_attempt keys (r : reply Response) tries s u tr :
  let tr0 := BatchGetItem keys r :: retry_events tries s u ++ tr in
  requests tr0 = keys :: requests tr ∧
  replies tr0 = r :: replies tr ∧
  responses tr0 = match r with Reply resp => [resp] | Fails _ => [] end ++ responses tr ∧
  sleeps tr0 = (if (tries + 1 <? max_tries)%Z then [s] else []) ++ sleeps tr.
Proof.
  cbv zeta. rewrite <- (requests_retry tries s u tr), <- (replies_retry tries s u tr),
    <- (responses_retry tries s u tr), <- (sleeps_retry tries s u tr).
  by destruct r.
Qed.

(** Case analysis on one iteration, for the inductions below. *)
Ltac loop_step :=
  rewrite do_batch_get_loop_unfold;
  let Htest := fresh "Htest" in
  destruct (_ <? max_tries)%Z eqn:Htest;
  [ let resp := fresh "resp" in
    let w1 := fresh "w1" in
    let Hcall := fresh "Hcall" in
    destruct (dynamodb_batch_get_item _ _ _) as [[resp|?] w1] eqn:Hcall;
    [ let Hcollect := fresh "Hcollect" in
      let Hun := fresh "Hun" in
      let Hsize := fresh "Hsize" in
      let Hrec := fresh "Hrec" in
      cbv zeta;
      destruct (collect resp _) as [?retrieved1| |] eqn:Hcollect;
      [ destruct (UnprocessedKeys resp) as [?unprocessed|] eqn:Hun;
        [ destruct (0 <? Z.of_nat (size _))%Z eqn:Hsize;
          [ destruct (do_batch_get_loop _ _ _ _ _ _ _) as [[?r ?tr'] ?w2] eqn:Hrec
          | ]
        | ]
      | | ]
    | ]
  | ].

(** The loop never runs out of fuel when given more fuel than tries left. *)
Lemma do_batch_get_loop_fuel fuel tries s
    (keys : gmap string KeysAndAttributes)
    (acc : gmap string (list (gmap string string))) w :
  0 < fuel → (max_tries - tries < Z.of_nat fuel)%Z →
  result_of (do_batch_get_loop boto3 fuel tries s keys acc w) ≠ OutOfFuel.
Proof.
  revert tries s keys acc w.
  induction fuel as [|fuel IH]; intros tries s keys acc w Hpos Hfuel; [lia|].
  rewrite do_batch_get_loop_unfold.
  destruct (tries <? max_tries)%Z eqn:Htest; [|done].
  apply Z.ltb_lt in Htest.
  destruct (dynamodb_batch_get_item _ _ _) as [[resp|?] w1]; [|done].
  cbv zeta. destruct (collect resp acc) as [acc1| |] eqn:Hcollect; try done.
  - destruct (UnprocessedKeys resp) as [u|]; [|done].
    destruct (0 <? Z.of_nat (size u))%Z; [|done].
    specialize (IH (tries + 1)%Z (next_sleepy_time tries s) u acc1 w1).
    destruct (do_batch_get_loop _ _ _ _ _ _ _) as [[r tr'] w2].
    apply IH; lia.
  - by apply collect_not_out_of_fuel in Hcollect.
Qed.

(** What the loop returns: each table's list, extended by the items every
    response listed under that table, in order of arrival. *)
Lemma do_batch_get_loop_accumulates fuel tries s
    (keys : gmap string KeysAndAttributes)
    (acc : gmap string (list (gmap string string))) w ret tr w' :
  do_batch_get_loop boto3 fuel tries s keys acc w = (Ok ret, tr, w') →
  ∀ t, ret !! t =
       (λ old, old ++ concat (returned_under t <$> responses tr)) <$> acc !! t.
Proof.
  revert tries s keys acc w ret tr w'.
  induction fuel as [|fuel IH]; intros tries s keys acc w ret tr w'; [done|].
  loop_step; intros (Hr & <- & <-)%triple_inv t; try done.
  - subst r.
    destruct (observe_attempt keys (Reply resp) tries s unprocessed tr')
      as (_ & _ & -> & _).
    cbn. rewrite (IH _ _ _ _ _ _ _ _ Hrec).
    rewrite (collect_lookup _ _ _ t Hcollect).
    destruct (acc !! t); cbn; [by rewrite app_assoc|done].
  - injection Hr as <-. cbn. rewrite (collect_lookup _ _ _ t Hcollect).
    destruct (acc !! t); cbn; [by rewrite app_nil_r|done].
  - injection Hr as <-. cbn. destruct (acc !! t); cbn; [by rewrite app_nil_r|done].
Qed.

(** The sleeps of the loop follow the backoff recurrence from the current
    [sleepy_time], and there is one fewer than tries left. *)
Lemma do_batch_get_loop_sleeps fuel tries s
    (keys : gmap string KeysAndAttributes)
    (acc : gmap string (list (gmap string string))) w :
  let tr := trace_of (do_batch_get_loop boto3 fuel tries s keys acc w) in
  sleeps tr = backoff (length (sleeps tr)) s ∧
  (Z.of_nat (length (sleeps tr)) ≤ Z.max 0 (max_tries - tries - 1))%Z.
Proof.
  revert tries s keys acc w.
  induction fuel as [|fuel IH]; intros tries s keys acc w; cbv zeta.
  { unfold trace_of. cbn. split; [done|lia]. }
  loop_step; unfold trace_of; cbn [fst snd];
    try (change (sleeps _) with (@nil Z); cbn; split; [done|lia]).
  specialize (IH (tries + 1)%Z (next_sleepy_time tries s) unprocessed retrieved1 w1).
  rewrite Hrec in IH. unfold trace_of in IH. cbn [fst snd] in IH.
  destruct IH as [IHs IHn].
  destruct (observe_attempt keys (Reply resp) tries s unprocessed tr')
    as (_ & _ & _ & ->).
  unfold next_sleepy_time in IHs.
  apply Z.ltb_lt in Htest.
  destruct (tries + 1 <? max_tries)%Z eqn:Hnext.
  - apply Z.ltb_lt in Hnext. cbn. split; [by rewrite <- IHs|lia].
  - apply Z.ltb_ge in Hnext.
    destruct (sleeps tr'); cbn in *; [split; [done|lia]|lia].
Qed.

(** The table names of the accumulator never change, and a normal return
    means every reply was digestible. *)
Lemma do_batch_get_loop_Ok_inv fuel tries s
    (keys : gmap string KeysAndAttributes)
    (acc : gmap string (list (gmap string string))) w ret tr w' :
  do_batch_get_loop boto3 fuel tries s keys acc w = (Ok ret, tr, w') →
  dom ret = dom acc ∧ forallb (digestible (dom acc)) (replies tr) = true.
Proof.
  revert tries s keys acc w ret tr w'.
  induction fuel as [|fuel IH]; intros tries s keys acc w ret tr w'; [done|].
  loop_step; intros (Hr & <- & <-)%triple_inv; try done.
  - subst r.
    destruct (observe_attempt keys (Reply resp) tries s unprocessed tr')
      as (_ & -> & _ & _).
    destruct (IH _ _ _ _ _ _ _ _ Hrec) as [Hdom Hall].
    rewrite (collect_dom _ _ _ Hcollect) in Hdom, Hall.
    split; [done|]. cbn. rewrite Hall, (collect_Ok_inv _ _ _ Hcollect), Hun. done.
  - injection Hr as <-. split; [by eapply collect_dom|].
    cbn. by rewrite (collect_Ok_inv _ _ _ Hcollect), Hun.
  - by injection Hr as <-.
Qed.

(** Conversely, digestible replies make the loop return normally. *)
Lemma do_batch_get_loop_Ok fuel tries s
    (keys : gmap string KeysAndAttributes)
    (acc : gmap string (list (gmap string string))) w :
  0 < fuel → (max_tries - tries < Z.of_nat fuel)%Z →
  let out := do_batch_get_loop boto3 fuel tries s keys acc w in
  forallb (digestible (dom acc)) (replies (trace_of out)) = true →
  ∃ ret, result_of out = Ok ret.
Proof.
  revert tries s keys acc w.
  induction fuel as [|fuel IH]; intros tries s keys acc w Hpos Hfuel; [lia|].
  cbv zeta. loop_step; unfold trace_of, result_of; cbn [fst snd];
    try (intros _; eexists; reflexivity); try (cbn; congruence).
  - destruct (observe_attempt keys (Reply resp) tries s unprocessed tr')
      as (_ & -> & _ & _).
    cbn [forallb]. intros [_ Hall]%andb_prop.
    apply Z.ltb_lt in Htest.
    specialize (IH (tries + 1)%Z (next_sleepy_time tries s) unprocessed retrieved1 w1).
    rewrite Hrec in IH. unfold trace_of, result_of in IH. cbn [fst snd] in IH.
    rewrite (collect_dom _ _ _ Hcollect) in IH. apply IH; [lia|lia|done].
  - cbn. rewrite Hun. by rewrite andb_false_r.
  - cbn. intros [Hn _]%andb_prop. apply andb_prop in Hn as [Hn _].
    apply collect_Ok in Hn as [? Hn]. congruence.
  - by apply collect_not_out_of_fuel in Hcollect.
Qed.

End LoopFacts.

Section Exhaustion.
Context {World : Type} (boto3 : Boto3 World).

Lemma after_request_retry n tries s u tr :
  after_request (S n) (retry_events tries s u ++ tr) = after_request (S n) tr.
Proof. unfold retry_events. by destruct (tries + 1 <? max_tries)%Z. Qed.

(** When every reply is digestible and reports unprocessed keys, the loop
    uses all the tries that are left, sleeps between them, and returns
    right after the last request. *)
Lemma do_batch_get_loop_busy fuel tries s
    (keys : gmap string KeysAndAttributes)
    (acc : gmap string (list (gmap string string))) w r tr w' :
  (tries < max_tries)%Z → (max_tries - tries < Z.of_nat fuel)%Z →
  do_batch_get_loop boto3 fuel tries s keys acc w = (r, tr, w') →
  forallb (digestible (dom acc)) (replies tr) = true →
  forallb reports_unprocessed (replies tr) = true →
  let n := Z.to_nat (max_tries - tries) in
  length (requests tr) = n ∧
  sleeps tr = backoff (n - 1) s ∧
  ∃ rest, after_request n tr = Some rest ∧ requests rest = [] ∧ sleeps rest = [].
Proof.
  revert tries s keys acc w r tr w'.
  induction fuel as [|fuel IH]; intros tries s keys acc w r tr w' Hlt Hfuel; [lia|].
  rewrite do_batch_get_loop_unfold.
  rewrite (proj2 (Z.ltb_lt _ _) Hlt).
  destruct (dynamodb_batch_get_item _ _ _) as [[resp|?] w1] eqn:Hcall;
    [|intros (_ & <- & _)%triple_inv; cbn; congruence].
  cbv zeta.
  destruct (collect resp acc) as [acc1| |] eqn:Hcollect;
    [|intros (_ & <- & _)%triple_inv; cbn;
      intros [[(? & Hn)%collect_Ok _]%andb_prop _]%andb_prop; congruence..].
  destruct (UnprocessedKeys resp) as [u|] eqn:Hun;
    [|intros (_ & <- & _)%triple_inv; cbn; rewrite Hun; cbn; congruence].
  destruct (0 <? Z.of_nat (size u))%Z eqn:Hsize.
  2:{ intros (_ & <- & _)%triple_inv _. cbn. rewrite Hun.
      intros [Hpos%Z.ltb_lt%unprocessed_count_pos _]%andb_prop. congruence. }
  destruct (do_batch_get_loop _ _ _ _ _ _ _) as [[r' tr'] w2] eqn:Hrec.
  intros (_ & <- & _)%triple_inv.
  destruct (observe_attempt keys (Reply resp) tries s u tr')
    as (-> & -> & _ & ->).
  cbn [forallb]. intros [_ Hdig]%andb_prop [_ Hbusy]%andb_prop.
  rewrite <- (collect_dom _ _ _ Hcollect) in Hdig.
  destruct (tries + 1 <? max_tries)%Z eqn:Hnext.
  - apply Z.ltb_lt in Hnext.
    assert (max_tries - (tries + 1) < Z.of_nat fuel)%Z as Hfuel' by lia.
    pose proof (IH _ _ _ _ _ _ _ _ Hnext Hfuel' Hrec Hdig Hbusy) as IH'.
    cbv zeta in IH'. destruct IH' as (Hlen & Hsl & rest & Hafter & Hreq & Hsleep).
    unfold next_sleepy_time in Hsl.
    rewrite (proj2 (Z.ltb_lt _ _) Hnext) in Hsl.
    replace (Z.to_nat (max_tries - tries))
      with (S (Z.to_nat (max_tries - (tries + 1)))) by lia.
    destruct (Z.to_nat (max_tries - (tries + 1))) as [|m] eqn:Hm; [lia|].
    replace (S m - 1) with m in Hsl by lia.
    replace (S (S m) - 1) with (S m) by lia.
    split; [cbn [length]; by rewrite Hlen|].
    split; [cbn; by rewrite Hsl|].
    exists rest. cbn [after_request]. by rewrite after_request_retry.
  - pose proof Hnext as Hnextb. apply Z.ltb_ge in Hnext.
    destruct fuel as [|fuel']; [lia|].
    rewrite do_batch_get_loop_unfold in Hrec.
    rewrite Hnextb in Hrec.
    apply triple_inv in Hrec as (_ & <- & _).
    replace (Z.to_nat (max_tries - tries)) with 1 by lia.
    split; [done|]. split; [done|].
    exists (retry_events tries s u ++ []). split; [done|].
    by rewrite requests_retry, sleeps_retry, Hnextb.
Qed.

End Exhaustion.

(** ** [do_batch_get] *)

Section DoBatchGet.
Context {World : Type} (boto3 : Boto3 World).

Lemma do_batch_get_terminates (keys : gmap string KeysAndAttributes) w :
  result_of (do_batch_get boto3 keys w) ≠ OutOfFuel.
Proof. apply do_batch_get_loop_fuel; cbn; lia. Qed.

(** The accumulator starts with an empty list for every requested table. *)
Lemma initial_retrieved_dom (keys : gmap string KeysAndAttributes) :
  dom ((λ _, []) <$> keys : gmap string (list (gmap string string))) = dom keys.
Proof. apply dom_fmap_L. Qed.

Lemma do_batch_get_returns (keys : gmap string KeysAndAttributes) w :
  let out := do_batch_get boto3 keys w in
  forallb (digestible (dom keys)) (replies (trace_of out)) = true →
  ∃ retrieved, result_of out = Ok retrieved.
Proof.
  cbv zeta. intros Hall. unfold do_batch_get in *.
  apply do_batch_get_loop_Ok; [cbn; lia|cbn; lia|].
  by rewrite initial_retrieved_dom.
Qed.

Lemma do_batch_get_returned (keys : gmap string KeysAndAttributes) w retrieved tr w' :
  do_batch_get boto3 keys w = (Ok retrieved, tr, w') →
  dom retrieved = dom keys ∧
  ∀ table, retrieved !! table =
           if decide (table ∈ dom keys)
           then Some (concat (returned_under table <$> responses tr))
           else None.
Proof.
  unfold do_batch_get. intros Hrun.
  split.
  - rewrite <- initial_retrieved_dom. by eapply do_batch_get_loop_Ok_inv.
  - intros table. rewrite (do_batch_get_loop_accumulates _ _ _ _ _ _ _ _ _ _ Hrun).
    rewrite lookup_fmap. case_decide as Hin.
    + apply elem_of_dom in Hin as [ks ->]. done.
    + apply not_elem_of_dom in Hin. by rewrite Hin.
Qed.

(** A run in which every reply is digestible and reports unprocessed keys
    uses up the five tries. *)
Lemma do_batch_get_busy (keys : gmap string KeysAndAttributes) w :
  let out := do_batch_get boto3 keys w in
  forallb (digestible (dom keys)) (replies (trace_of out)) = true →
  forallb reports_unprocessed (replies (trace_of out)) = true →
  length (requests (trace_of out)) = 5 ∧
  sleeps (trace_of out) = [1; 2; 4; 8]%Z ∧
  ∃ rest, after_request 5 (trace_of out) = Some rest ∧
          requests rest = [] ∧ sleeps rest = [].
Proof.
  cbv zeta. intros Hdig Hbusy. unfold do_batch_get in *.
  destruct (do_batch_get_loop _ _ _ _ _ _ _) as [[r tr] w'] eqn:Hrun.
  unfold trace_of in *. cbn [fst snd] in *.
  rewrite <- initial_retrieved_dom in Hdig.
  assert (0 < max_tries)%Z as Htries by done.
  assert (max_tries - 0 < Z.of_nat (S (Z.to_nat max_tries)))%Z as Hfuel
    by (cbn; lia).
  pose proof (do_batch_get_loop_busy boto3 _ _ _ _ _ _ _ _ _
                Htries Hfuel Hrun Hdig Hbusy) as H.
  cbv zeta in H. change (Z.to_nat (max_tries - 0)) with 5 in H. done.
Qed.

(** A single response that lists [retrieved] and leaves nothing
    unprocessed makes [do_batch_get] return [retrieved]. *)
Lemma do_batch_get_complete_with (keys : gmap string KeysAndAttributes)
    (retrieved : gmap string (list (gmap string string))) w resp w1 :
  dom retrieved = dom keys →
  dynamodb_batch_get_item boto3 keys w = (Reply resp, w1) →
  resp = complete_with retrieved →
  do_batch_get boto3 keys w = (Ok retrieved, [BatchGetItem keys (Reply resp)], w1).
Proof.
  intros Hdom Hcall ->. unfold do_batch_get. rewrite do_batch_get_loop_unfold.
  change (0 <? max_tries)%Z with true. cbv iota. rewrite Hcall. cbv zeta.
  destruct (collect_Ok (complete_with retrieved) ((λ _, []) <$> keys))
    as [acc1 Hcollect].
  { unfold names_within. cbn. apply bool_decide_eq_true.
    by rewrite initial_retrieved_dom, Hdom. }
  rewrite Hcollect. cbn.
  replace acc1 with retrieved; [done|].
  apply map_eq. intros t. rewrite (collect_lookup _ _ _ t Hcollect).
  rewrite lookup_fmap. unfold returned_under. cbn.
  destruct (keys !! t) as [ks|] eqn:Hk; cbn.
  - assert (t ∈ dom retrieved) as [items Hi]%elem_of_dom.
    { rewrite Hdom. apply elem_of_dom. by eexists. }
    by rewrite Hi.
  - apply not_elem_of_dom. rewrite Hdom. by apply not_elem_of_dom.
Qed.

End DoBatchGet.

Section DoBatchGetClaims.
Context {World : Type} (boto3 : Boto3 World).

(** C1, as amended.  In every run of [do_batch_get] the sleeps follow the
    backoff recurrence: the first sleep is 1 second and each later one is
    the minimum of twice the previous one and 32.  There are at most four
    of them, so the durations are a prefix of 1, 2, 4, 8: the fifth value
    of the recurrence, 16, and the cap of 32 are never slept. *)
Theorem do_batch_get_backoff (keys : gmap string KeysAndAttributes) w :
  let tr := trace_of (do_batch_get boto3 keys w) in
  sleeps tr = backoff (length (sleeps tr)) 1 ∧
  length (sleeps tr) ≤ 4 ∧
  sleeps tr `prefix_of` [1; 2; 4; 8]%Z.
Proof.
  cbv zeta. unfold do_batch_get.
  destruct (do_batch_get_loop_sleeps boto3 (S (Z.to_nat max_tries)) 0 1 keys
              ((λ _, []) <$> keys) w) as [Hrec Hlen].
  cbv zeta in Hrec, Hlen. change (Z.max 0 (max_tries - 0 - 1)) with 4%Z in Hlen.
  split; [done|]. split; [lia|].
  rewrite Hrec.
  destruct (length (sleeps _)) as [|[|[|[|[|n]]]]]; [| | | | |lia]; cbn.
  - by exists [1; 2; 4; 8]%Z.
  - by exists [2; 4; 8]%Z.
  - by exists [4; 8]%Z.
  - by exists [8]%Z.
  - by exists [].
Qed.

(** C2, as amended.  When every reply of the run is a response that
    reports at least one unprocessed key and is digestible (it names only
    requested tables), [do_batch_get] issues exactly 5 requests, returns,
    and the events after the 5th request contain neither a sleep nor a
    further request; the four sleeps lie between the attempts. *)
Theorem do_batch_get_exhausts_after_five (keys : gmap string KeysAndAttributes) w :
  let out := do_batch_get boto3 keys w in
  forallb (digestible (dom keys)) (replies (trace_of out)) = true →
  forallb reports_unprocessed (replies (trace_of out)) = true →
  length (requests (trace_of out)) = 5 ∧
  (∃ retrieved, result_of out = Ok retrieved) ∧
  sleeps (trace_of out) = [1; 2; 4; 8]%Z ∧
  ∃ rest, after_request 5 (trace_of out) = Some rest ∧
          requests rest = [] ∧ sleeps rest = [].
Proof.
  cbv zeta. intros Hdig Hbusy.
  pose proof (do_batch_get_returns boto3 keys w Hdig) as Hret.
  pose proof (do_batch_get_busy boto3 keys w Hdig Hbusy) as (Hlen & Hsl & Hrest).
  done.
Qed.

(** C3, as amended.  When the UnprocessedKeys mapping of the first response
    is empty (it has no entry for any table), [do_batch_get] issues exactly
    one request and does not sleep; when the response names only requested
    tables the call returns right after that one round trip. *)
Theorem do_batch_get_single_round_trip (keys : gmap string KeysAndAttributes)
    w resp w1 :
  dynamodb_batch_get_item boto3 keys w = (Reply resp, w1) →
  UnprocessedKeys resp = Some ∅ →
  let out := do_batch_get boto3 keys w in
  requests (trace_of out) = [keys] ∧
  sleeps (trace_of out) = [] ∧
  result_of out ≠ OutOfFuel ∧
  (names_within (dom keys) resp = true →
   ∃ retrieved, out = (Ok retrieved, [BatchGetItem keys (Reply resp)], w1)).
Proof.
  intros Hcall Hun. cbv zeta.
  split; [|split; [|split; [apply do_batch_get_terminates|]]];
    unfold do_batch_get; rewrite do_batch_get_loop_unfold;
    change (0 <? max_tries)%Z with true; cbv iota; rewrite Hcall; cbv zeta;
    destruct (collect resp _) as [acc1| |] eqn:Hcollect; rewrite ?Hun; try done.
  - intros _. by exists acc1.
  - intros Hn. rewrite <- initial_retrieved_dom in Hn.
    apply collect_Ok in Hn as [? Hn]. congruence.
  - by apply collect_not_out_of_fuel in Hcollect.
Qed.

(** C9.  When every reply is digestible, the returned dictionary has the
    key set of [batch_keys]; a requested table for which no response
    listed an item is mapped to the empty list. *)
Theorem do_batch_get_key_set (keys : gmap string KeysAndAttributes) w :
  let out := do_batch_get boto3 keys w in
  forallb (digestible (dom keys)) (replies (trace_of out)) = true →
  ∃ retrieved,
    result_of out = Ok retrieved ∧
    dom retrieved = dom keys ∧
    ∀ table, table ∈ dom keys →
      Forall (λ resp, returned_under table resp = []) (responses (trace_of out)) →
      retrieved !! table = Some [].
Proof.
  cbv zeta. intros Hdig.
  destruct (do_batch_get_returns boto3 keys w Hdig) as [retrieved Hret].
  exists retrieved. split; [done|].
  destruct (do_batch_get boto3 keys w) as [[r tr] w'] eqn:Hrun.
  unfold result_of, trace_of in *. cbn [fst snd] in *. subst r.
  destruct (do_batch_get_returned boto3 keys w retrieved tr w' Hrun) as [Hdom Hlook].
  split; [done|]. intros table Hin Hnone.
  rewrite Hlook. rewrite decide_True by done. f_equal.
  by apply concat_fmap_nil.
Qed.

(** C10.  A response without a Responses entry is treated as listing no
    items, but UnprocessedKeys is read unconditionally: when the first
    response has no such entry, [do_batch_get] raises a KeyError for
    'UnprocessedKeys' instead of returning. *)
Theorem do_batch_get_missing_UnprocessedKeys (keys : gmap string KeysAndAttributes)
    w resp w1 :
  dynamodb_batch_get_item boto3 keys w = (Reply resp, w1) →
  names_within (dom keys) resp = true →
  let out := do_batch_get boto3 keys w in
  let ev := BatchGetItem keys (Reply resp) in
  (UnprocessedKeys resp = None →
   out = (Raise (KeyError "UnprocessedKeys"), [ev], w1)) ∧
  (Responses resp = None → UnprocessedKeys resp = Some ∅ →
   out = (Ok ((λ _, []) <$> keys), [ev], w1)).
Proof.
  intros Hcall Hn. cbv zeta.
  rewrite <- initial_retrieved_dom in Hn. apply collect_Ok in Hn as [acc1 Hcollect].
  split; [intros Hun|intros Hresp Hun];
    unfold do_batch_get; rewrite do_batch_get_loop_unfold;
    change (0 <? max_tries)%Z with true; cbv iota; rewrite Hcall; cbv zeta;
    rewrite Hcollect, Hun; [done|].
  unfold collect in Hcollect. rewrite Hresp in Hcollect. by injection Hcollect as <-.
Qed.

(** C7.  A run that exhausts its five tries with unprocessed keys still
    reported returns its partial accumulator as an ordinary value, and
    nothing in that value marks it as partial: a call that the service
    answers completely in one round trip returns the very same value. *)
Theorem do_batch_get_exhaustion_unmarked (keys : gmap string KeysAndAttributes) w :
  let out := do_batch_get boto3 keys w in
  forallb (digestible (dom keys)) (replies (trace_of out)) = true →
  forallb reports_unprocessed (replies (trace_of out)) = true →
  length (requests (trace_of out)) = 5 ∧
  ∃ retrieved,
    result_of out = Ok retrieved ∧
    let complete := do_batch_get (answering (complete_with retrieved)) keys 0 in
    result_of complete = Ok retrieved ∧
    replies (trace_of complete) = [Reply (complete_with retrieved)] ∧
    UnprocessedKeys (complete_with retrieved) = Some ∅.
Proof.
  cbv zeta. intros Hdig Hbusy.
  pose proof (do_batch_get_busy boto3 keys w Hdig Hbusy) as (Hlen & _).
  split; [done|].
  destruct (do_batch_get_returns boto3 keys w Hdig) as [retrieved Hret].
  exists retrieved. split; [done|].
  destruct (do_batch_get boto3 keys w) as [[r tr] w'] eqn:Hrun.
  unfold result_of in Hret. cbn [fst snd] in Hret. subst r.
  destruct (do_batch_get_returned boto3 keys w retrieved tr w' Hrun) as [Hdom _].
  rewrite (do_batch_get_complete_with (answering (complete_with retrieved))
             keys retrieved 0 (complete_with retrieved) 1 Hdom eq_refl eq_refl).
  done.
Qed.

End DoBatchGetClaims.

(** C1, as stated, fails.  Against a service that reports unprocessed keys
    every time, [do_batch_get] makes its five attempts and sleeps 1, 2, 4
    and 8 seconds between them: not the five durations 1, 2, 4, 8, 16 of the
    recurrence, and no sleep of 16 seconds. *)
Lemma do_batch_get_never_sleeps_16 :
  let tr := trace_of (do_batch_get (answering busy_response) demo_keys 0) in
  length (requests tr) = 5 ∧
  sleeps tr = [1; 2; 4; 8]%Z ∧
  sleeps tr ≠ backoff 5 1 ∧
  16%Z ∉ sleeps tr.
Proof.
  cbv zeta.
  assert (sleeps (trace_of (do_batch_get (answering busy_response) demo_keys 0))
          = [1; 2; 4; 8]%Z) as -> by (vm_compute; reflexivity).
  split; [vm_compute; reflexivity|]. split; [done|]. split; [done|].
  rewrite !elem_of_cons, elem_of_nil. intros [?|[?|[?|[?|[]]]]]; done.
Qed.

Lemma do_batch_get_exhausts_after_five_witness :
  let out := do_batch_get (answering busy_response) demo_keys 0 in
  forallb (digestible (dom demo_keys)) (replies (trace_of out)) = true ∧
  forallb reports_unprocessed (replies (trace_of out)) = true ∧
  length (requests (trace_of out)) = 5 ∧
  (∃ retrieved, result_of out = Ok retrieved) ∧
  sleeps (trace_of out) = [1; 2; 4; 8]%Z ∧
  ∃ rest, after_request 5 (trace_of out) = Some rest ∧
          requests rest = [] ∧ sleeps rest = [].
Proof.
  cbv zeta. split; [vm_compute; reflexivity|]. split; [vm_compute; reflexivity|].
  apply (do_batch_get_exhausts_after_five (answering busy_response) demo_keys 0);
    vm_compute; reflexivity.
Defined.

Lemma do_batch_get_single_round_trip_witness :
  let resp := complete_with {[ "trades" := [trade "a"; trade "b"];
                               "entities" := [entity "x"] ]} in
  let out := do_batch_get (answering resp) demo_keys 0 in
  requests (trace_of out) = [demo_keys] ∧
  sleeps (trace_of out) = [] ∧
  result_of out ≠ OutOfFuel ∧
  (names_within (dom demo_keys) resp = true →
   ∃ retrieved, out = (Ok retrieved, [BatchGetItem demo_keys (Reply resp)], 1)).
Proof.
  cbv zeta.
  apply (do_batch_get_single_round_trip (answering _) demo_keys 0 _ 1);
    reflexivity.
Defined.

Lemma do_batch_get_key_set_witness :
  let out := do_batch_get two_rounds demo_keys 0 in
  forallb (digestible (dom demo_keys)) (replies (trace_of out)) = true ∧
  ∃ retrieved,
    result_of out = Ok retrieved ∧
    dom retrieved = dom demo_keys ∧
    ∀ table, table ∈ dom demo_keys →
      Forall (λ resp, returned_under table resp = []) (responses (trace_of out)) →
      retrieved !! table = Some [].
Proof.
  cbv zeta. split; [vm_compute; reflexivity|].
  apply (do_batch_get_key_set two_rounds demo_keys 0).
  vm_compute; reflexivity.
Defined.

Lemma do_batch_get_exhaustion_unmarked_witness :
  let out := do_batch_get (answering busy_response) demo_keys 0 in
  forallb (digestible (dom demo_keys)) (replies (trace_of out)) = true ∧
  forallb reports_unprocessed (replies (trace_of out)) = true ∧
  length (requests (trace_of out)) = 5 ∧
  ∃ retrieved,
    result_of out = Ok retrieved ∧
    let complete := do_batch_get (answering (complete_with retrieved)) demo_keys 0 in
    result_of complete = Ok retrieved ∧
    replies (trace_of complete) = [Reply (complete_with retrieved)] ∧
    UnprocessedKeys (complete_with retrieved) = Some ∅.
Proof.
  cbv zeta. split; [vm_compute; reflexivity|]. split; [vm_compute; reflexivity|].
  apply (do_batch_get_exhaustion_unmarked (answering busy_response) demo_keys 0);
    vm_compute; reflexivity.
Defined.

Lemma do_batch_get_missing_UnprocessedKeys_witness :
  let out := do_batch_get (answering (bare_response None)) demo_keys 0 in
  names_within (dom demo_keys) (bare_response None) = true ∧
  out = (Raise (KeyError "UnprocessedKeys"),
         [BatchGetItem demo_keys (Reply (bare_response None))], 1).
Proof.
  cbv zeta. split; [reflexivity|].
  apply (do_batch_get_missing_UnprocessedKeys
           (answering (bare_response None)) demo_keys 0 (bare_response None) 1);
    reflexivity.
Defined.


(** ** The size of the request built by [get_batch_data] *)

Lemma total_keys_insert (batch_keys : gmap string KeysAndAttributes) table ks :
  batch_keys !! table = None →
  total_keys (<[table := ks]> batch_keys) = length (Keys ks) + total_keys batch_keys.
Proof.
  intros Hnone. unfold total_keys.
  assert (∀ l : list (string * KeysAndAttributes),
            sum_list ((λ kv, length (Keys kv.2)) <$> l)
            = sum_list_with (λ kv, length (Keys kv.2)) l) as Hsum.
  { induction l as [|kv l IH]; [done|]. cbn. by rewrite <- IH. }
  rewrite !Hsum. by rewrite (map_to_list_insert batch_keys table ks Hnone).
Qed.

Lemma index_keys_length attr i xs ks :
  index_keys attr i xs = Ok ks → length ks = length xs.
Proof.
  revert ks. induction xs as [|x xs IH]; intros ks; cbn.
  - by intros [= <-].
  - destruct (String.get i x); [|done].
    destruct (index_keys attr i xs) as [ks'| |]; try done.
    intros [= <-]. cbn. by rewrite (IH ks').
Qed.

(** [get_batch_data] puts every key of its three lists into one request:
    nothing in it looks at [MAX_GET_SIZE]. *)
Lemma get_batch_data_keys_total t1 l1 t2 l2 t3 l3 batch_keys :
  name t1 ≠ name t2 → name t1 ≠ name t3 → name t2 ≠ name t3 →
  get_batch_data_keys t1 l1 t2 l2 t3 l3 = Ok batch_keys →
  total_keys batch_keys = length l1 + length l2 + length l3.
Proof.
  intros H12 H13 H23. unfold get_batch_data_keys.
  destruct (index_keys "notional" 5 l1) as [k1| |] eqn:E1; try done.
  destruct (index_keys "float_value" 6 l2) as [k2| |] eqn:E2; try done.
  destruct (index_keys "float_value" 6 l3) as [k3| |] eqn:E3; try done.
  intros [= <-].
  rewrite !total_keys_insert; cbn.
  - rewrite (index_keys_length _ _ _ _ E1), (index_keys_length _ _ _ _ E2),
      (index_keys_length _ _ _ _ E3).
    unfold total_keys. rewrite map_to_list_empty. cbn. lia.
  - done.
  - by rewrite lookup_insert_ne.
  - by rewrite !lookup_insert_ne.
Qed.

Lemma attr_values_length attr data vs :
  attr_values attr data = Ok vs → length vs = length data.
Proof.
  revert vs. induction data as [|x data IH]; intros vs; cbn.
  - by intros [= <-].
  - destruct (x !! attr); [|done].
    destruct (attr_values attr data) as [vs'| |]; try done.
    intros [= <-]. cbn. by rewrite (IH vs').
Qed.

(** ** Vendor errors: caught, logged, re-raised *)

Lemma sdk_failures_app tr1 tr2 :
  sdk_failures (tr1 ++ tr2) = sdk_failures tr1 ++ sdk_failures tr2.
Proof. apply omap_app. Qed.



Section Propagation.
Context {World : Type}.

Lemma faithful_bind {A B} (m : M World A) (f : A → M World B) w :
  faithful (m w) →
  (∀ a t1 w1, m w = (Ok a, t1, w1) → faithful (f a w1)) →
  faithful (bind m f w).
Proof.
  intros Hm Hf. unfold bind.
  destruct (m w) as [[[a|e|] t1] w1]; try done.
  specialize (Hf a t1 w1 eq_refl). destruct (f a w1) as [[r t2] w2].
  unfold faithful, result_of, trace_of in *. cbn [fst snd] in *.
  rewrite sdk_failures_app, Hm. done.
Qed.


Lemma propagates_ret {A} (a : A) : propagates (ret a : M World A).
Proof. by intros w. Qed.

Lemma propagates_emit e : sdk_failure e = None → propagates (emit e : M World unit).
Proof. intros He w. unfold faithful, sdk_failures. cbn. by rewrite He. Qed.



Lemma propagates_sdk {A} (op : World → reply A * World) (ev : reply A → event) :
  (∀ r, sdk_failure (ev r) = failure r) → propagates (sdk op ev).
Proof.
  intros Hev w. unfold faithful, sdk, result_of, trace_of, sdk_failures.
  destruct (op w) as [[a|c] w1]; cbn; by rewrite Hev.
Qed.

Lemma propagates_bind {A B} (m : M World A) (f : A → M World B) :
  propagates m → (∀ a, propagates (f a)) → propagates (bind m f).
Proof. intros Hm Hf w. apply faithful_bind; [apply Hm|]. intros a _ w1 _. apply Hf. Qed.

Lemma propagates_for {A} (xs : list A) (body : A → M World unit) :
  (∀ x, propagates (body x)) → propagates (for_ xs body).
Proof.
  intros Hbody. induction xs as [|x xs IH]; cbn.
  - apply propagates_ret.
  - by apply propagates_bind.
Qed.

Lemma vendor_only_sdk {A} (op : World → reply A * World) (ev : reply A → event) :
  vendor_only (sdk op ev).
Proof. intros w. unfold sdk, result_of. by destruct (op w) as [[a|c] w1]. Qed.

Lemma propagates_with {A} (enter exit : M World unit) (body : M World A) :
  propagates enter → propagates exit → vendor_only exit → propagates body →
  propagates (with_ enter exit body).
Proof.
  intros Henter Hexit Hvendor Hbody w. specialize (Henter w). unfold with_.
  destruct (enter w) as [[[[]|e0|] t0] w0]; try done.
  specialize (Hbody w0). destruct (body w0) as [[rb t1] w1].
  specialize (Hexit w1). specialize (Hvendor w1).
  destruct (exit w1) as [[rx t2] w2].
  unfold faithful, result_of, trace_of in *. cbn [fst snd] in *.
  destruct rx as [[]|[c| |]|]; try done.
  - destruct rb as [b|eb|]; cbn [fst snd];
      rewrite ?sdk_failures_app, ?Henter; cbn [app];
      rewrite ?Hexit, ?app_nil_r; done.
  - destruct rb as [b|eb|]; cbn [fst snd];
      rewrite ?sdk_failures_app, ?Henter; cbn [app];
      rewrite ?last_app, ?Hexit; done.
Qed.



End Propagation.



Lemma index_keys_not_ClientError attr i xs c :
  index_keys attr i xs ≠ Raise (ClientError c).
Proof.
  induction xs as [|x xs IH]; cbn; [done|].
  destruct (String.get i x); [|done].
  destruct (index_keys attr i xs) as [|[]|]; try done.
Qed.

Lemma get_batch_data_keys_not_ClientError t1 l1 t2 l2 t3 l3 c :
  get_batch_data_keys t1 l1 t2 l2 t3 l3 ≠ Raise (ClientError c).
Proof.
  unfold get_batch_data_keys.
  pose proof (index_keys_not_ClientError "notional" 5 l1 c).
  pose proof (index_keys_not_ClientError "float_value" 6 l2 c).
  pose proof (index_keys_not_ClientError "float_value" 6 l3 c).
  destruct (index_keys "notional" 5 l1) as [|[]|];
    try done; try (intros [= ->]; congruence);
    destruct (index_keys "float_value" 6 l2) as [|[]|];
    try done; try (intros [= ->]; congruence);
    destruct (index_keys "float_value" 6 l3) as [|[]|];
    try done; intros [= ->]; congruence.
Qed.

Section ErrorHandling.
Context {World : Type} (boto3 : Boto3 World).

Lemma propagates_with_batch_writer {A} table (body : M World A) :
  propagates body → propagates (with_batch_writer boto3 table body).
Proof.
  intros Hbody. apply propagates_with; [| |apply vendor_only_sdk|done];
    by apply propagates_sdk.
Qed.



Lemma propagates_archive_put_all table data :
  propagates (archive_put_all boto3 table data).
Proof.
  apply propagates_bind; [|intros _; by apply propagates_emit].
  apply propagates_with_batch_writer, propagates_for.
  intros item. by apply propagates_sdk.
Qed.











End ErrorHandling.

Section ErrorHandlingClaim.
Context {World : Type} (boto3 : Boto3 World).


End ErrorHandlingClaim.

(** ** The order of operations in [archive_trades] *)

Section Inversion.
Context {World : Type}.

Lemma bind_Ok_inv {A B} (m : M World A) (f : A → M World B) w b t w' :
  bind m f w = (Ok b, t, w') →
  ∃ a t1 w1 t2, m w = (Ok a, t1, w1) ∧ f a w1 = (Ok b, t2, w') ∧ t = t1 ++ t2.
Proof.
  unfold bind. destruct (m w) as [[[a|e|] t1] w1]; try done.
  destruct (f a w1) as [[r t2] w2] eqn:Hf. intros (-> & <- & <-)%triple_inv.
  by exists a, t1, w1, t2.
Qed.

Lemma sdk_Ok_inv {A} (op : World → reply A * World) (ev : reply A → event) w a t w' :
  sdk op ev w = (Ok a, t, w') → t = [ev (Reply a)].
Proof.
  unfold sdk. destruct (op w) as [[a'|c] w1]; [|done].
  by intros ([= ->] & <- & _)%triple_inv.
Qed.

Lemma emit_inv e w r t w' :
  (emit e : M World unit) w = (r, t, w') → r = Ok () ∧ t = [e] ∧ w' = w.
Proof. by intros (<- & <- & <-)%triple_inv. Qed.

(** A handler that logs and raises never turns a failure into a return. *)
Lemma try_Ok_inv {A} (body : M World A) fmt args w a t w' :
  try_except_ClientError body
    (λ code, bind (log_exception fmt args) (λ _, raise (ClientError code))) w
    = (Ok a, t, w') →
  body w = (Ok a, t, w').
Proof.
  unfold try_except_ClientError.
  by destruct (body w) as [[[a'|[c| |]|] t1] w1].
Qed.

Lemma with_Ok_inv {A} (enter exit : M World unit) (body : M World A) w a t w' :
  with_ enter exit body w = (Ok a, t, w') →
  ∃ t0 w0 t1 w1 t2,
    enter w = (Ok (), t0, w0) ∧ body w0 = (Ok a, t1, w1) ∧
    exit w1 = (Ok (), t2, w') ∧ t = t0 ++ t1 ++ t2.
Proof.
  unfold with_. destruct (enter w) as [[[[]|e0|] t0] w0]; try done.
  destruct (body w0) as [[[a'|eb|] t1] w1] eqn:Hbody; try done;
    destruct (exit w1) as [[[[]|ex|] t2] w2] eqn:Hexit; try done.
  intros ([= ->] & <- & <-)%triple_inv. by exists t0, w0, t1, w1, t2.
Qed.

Lemma for_sdk_Ok_inv {A} (op : A → World → reply unit * World)
    (ev : A → reply unit → event) xs w t w' :
  for_ xs (λ x, sdk (op x) (ev x)) w = (Ok (), t, w') →
  t = (λ x, ev x (Reply ())) <$> xs.
Proof.
  revert w t. induction xs as [|x xs IH]; intros w t; cbn [for_].
  - by intros (_ & <- & _)%triple_inv.
  - intros ([] & t1 & w1 & t2 & Hx & Hxs & ->)%bind_Ok_inv.
    apply sdk_Ok_inv in Hx as ->. by rewrite (IH _ _ Hxs).
Qed.

Lemma deletes_app tr1 tr2 : deletes (tr1 ++ tr2) = deletes tr1 ++ deletes tr2.
Proof. apply omap_app. Qed.

Lemma never_deletes_ret {A} (a : A) : never_deletes (ret a : M World A).
Proof. by intros w. Qed.

Lemma never_deletes_emit e :
  (∀ t k r, e ≠ DeleteItem t k r) → never_deletes (emit e : M World unit).
Proof. intros He w. unfold trace_of, emit. cbn. destruct e; try done. by destruct (He t k r). Qed.

Lemma never_deletes_sdk {A} (op : World → reply A * World) (ev : reply A → event) :
  (∀ r, deletes [ev r] = []) → never_deletes (sdk op ev).
Proof.
  intros Hev w. unfold trace_of, sdk.
  destruct (op w) as [[a|c] w1]; cbn [fst snd]; apply Hev.
Qed.

Lemma never_deletes_bind {A B} (m : M World A) (f : A → M World B) :
  never_deletes m → (∀ a, never_deletes (f a)) → never_deletes (bind m f).
Proof.
  intros Hm Hf w. specialize (Hm w). unfold bind.
  destruct (m w) as [[[a|e|] t1] w1]; try done.
  specialize (Hf a w1). destruct (f a w1) as [[r t2] w2].
  unfold trace_of in *. cbn [fst snd] in *. by rewrite deletes_app, Hm, Hf.
Qed.

Lemma never_deletes_for {A} (xs : list A) (body : A → M World unit) :
  (∀ x, never_deletes (body x)) → never_deletes (for_ xs body).
Proof.
  intros Hbody. induction xs as [|x xs IH]; cbn.
  - apply never_deletes_ret.
  - by apply never_deletes_bind.
Qed.

Lemma never_deletes_with {A} (enter exit : M World unit) (body : M World A) :
  never_deletes enter → never_deletes exit → never_deletes body →
  never_deletes (with_ enter exit body).
Proof.
  intros Henter Hexit Hbody w. specialize (Henter w). unfold with_.
  destruct (enter w) as [[[[]|e0|] t0] w0]; try done.
  specialize (Hbody w0). destruct (body w0) as [[rb t1] w1].
  specialize (Hexit w1). destruct (exit w1) as [[rx t2] w2].
  unfold trace_of in *. cbn [fst snd] in *.
  destruct rb as [b|eb|]; destruct rx as [[]|ex|]; cbn [fst snd];
    rewrite ?deletes_app, ?Henter, ?Hbody, ?Hexit; done.
Qed.

Lemma never_deletes_try {A} (body : M World A) (handler : string → M World A) :
  never_deletes body → (∀ c, never_deletes (handler c)) →
  never_deletes (try_except_ClientError body handler).
Proof.
  intros Hbody Hh w. specialize (Hbody w). unfold try_except_ClientError.
  destruct (body w) as [[[a|[c| |]|] t1] w1]; try done.
  specialize (Hh c w1). destruct (handler c w1) as [[r t2] w2].
  unfold trace_of in *. cbn [fst snd] in *. by rewrite deletes_app, Hbody, Hh.
Qed.

End Inversion.

Section ArchiveOrder.
Context {World : Type} (boto3 : Boto3 World).

Lemma with_batch_writer_Ok_inv {A} table (body : M World A) w a t w' :
  with_batch_writer boto3 table body w = (Ok a, t, w') →
  ∃ w0 t1 w1, body w0 = (Ok a, t1, w1) ∧
    t = BatchWriterEnter table (Reply ()) :: t1 ++ [BatchWriterExit table (Reply ())].
Proof.
  intros (t0 & w0 & t1 & w1 & t2 & Henter & Hbody & Hexit & ->)%with_Ok_inv.
  apply sdk_Ok_inv in Henter as ->. apply sdk_Ok_inv in Hexit as ->.
  by exists w0, t1, w1.
Qed.

Lemma archive_create_Ok_inv trade_table w archive_table t w' :
  archive_create boto3 trade_table w = (Ok archive_table, t, w') →
  t = [CreateTable (archive_spec trade_table) (Reply archive_table);
       LogInfo "Table %s created, wait until exists." [ArgStr (name archive_table)];
       WaitUntilExists archive_table (Reply ())].
Proof.
  intros Hrun%try_Ok_inv. cbv zeta in Hrun.
  apply bind_Ok_inv in Hrun as (a & t1 & w1 & t2 & Hcreate & Hrun & ->).
  apply sdk_Ok_inv in Hcreate as ->.
  apply bind_Ok_inv in Hrun as ([] & t1 & w2 & t3 & Hlog & Hrun & ->).
  apply emit_inv in Hlog as (_ & -> & ->).
  apply bind_Ok_inv in Hrun as ([] & t1 & w3 & t4 & Hwait & Hrun & ->).
  apply sdk_Ok_inv in Hwait as ->.
  by apply triple_inv in Hrun as ([= ->] & <- & _).
Qed.

Lemma archive_put_all_Ok_inv archive_table trade_data w t w' :
  archive_put_all boto3 archive_table trade_data w = (Ok (), t, w') →
  t = put_events archive_table trade_data
      ++ [LogInfo "Put trades into %s." [ArgStr (name archive_table)]].
Proof.
  intros ([] & t1 & w1 & t2 & Hwith & Hlog & ->)%bind_Ok_inv.
  apply emit_inv in Hlog as (_ & -> & _).
  apply with_batch_writer_Ok_inv in Hwith as (w0 & t0 & w2 & Hfor & ->).
  unfold put_item in Hfor.
  by rewrite (for_sdk_Ok_inv (writer_put_item boto3 archive_table)
                (PutItem archive_table) _ _ _ _ Hfor).
Qed.

Lemma delete_loop_Ok_inv trade_table (trade_data : list (gmap string string)) w t w' :
  for_ trade_data (λ item,
    match item !! "notional" with
    | Some v => delete_item boto3 trade_table ({[ "notional" := v ]} : gmap string string)
    | None => raise (KeyError "notional")
    end) w = (Ok (), t, w') →
  ∃ values, attr_values "notional" trade_data = Ok values ∧
    t = (λ v, DeleteItem trade_table ({[ "notional" := v ]} : gmap string string)
                (Reply ())) <$> values.
Proof.
  revert w t. induction trade_data as [|item data IH]; intros w t; cbn [for_ attr_values].
  - intros (_ & <- & _)%triple_inv. by exists [].
  - intros ([] & t1 & w1 & t2 & Hitem & Hrest & ->)%bind_Ok_inv.
    destruct (item !! "notional") as [v|]; [|done].
    apply sdk_Ok_inv in Hitem as ->.
    destruct (IH _ _ Hrest) as (values & -> & ->). by exists (v :: values).
Qed.

Lemma archive_delete_Ok_inv trade_table trade_data w t w' :
  archive_delete boto3 trade_table trade_data w = (Ok (), t, w') →
  ∃ values, attr_values "notional" trade_data = Ok values ∧
    t = delete_events trade_table values
        ++ [LogInfo "Deleted trades from %s." [ArgStr (name trade_table)]].
Proof.
  intros Hrun%try_Ok_inv.
  apply bind_Ok_inv in Hrun as ([] & t1 & w1 & t2 & Hwith & Hlog & ->).
  apply emit_inv in Hlog as (_ & -> & _).
  apply with_batch_writer_Ok_inv in Hwith as (w0 & t0 & w2 & Hfor & ->).
  apply delete_loop_Ok_inv in Hfor as (values & Hvalues & ->).
  by exists values.
Qed.

Lemma never_deletes_archive_put_first archive_table trade_data :
  never_deletes (archive_put_first boto3 archive_table trade_data).
Proof.
  apply never_deletes_try.
  - apply never_deletes_bind; [|intros _; by apply never_deletes_emit].
    apply never_deletes_with; [by apply never_deletes_sdk..|].
    apply never_deletes_for. intros item. by apply never_deletes_sdk.
  - intros c. destruct (String.eqb c "ValidationException").
    + by apply never_deletes_emit.
    + apply never_deletes_bind; [by apply never_deletes_emit|by intros _].
Qed.

(** C8.  In a run of [archive_trades] that returns, the trace is: the
    creation of the archive table, named after the source table with
    '-archive' appended and with its key schema, and the wait until it
    exists; the first put block, which deletes nothing; a batch writer
    block on the archive table that puts every item of [trade_data];
    then a batch writer block on the source table with the deletes.  The
    value returned is the table the SDK created. *)
Theorem archive_trades_order trade_table trade_data w archive_table tr w' :
  archive_trades boto3 trade_table trade_data w = (Ok archive_table, tr, w') →
  TableName (archive_spec trade_table) = name trade_table +:+ "-archive" ∧
  KeySchema (archive_spec trade_table) = key_schema trade_table ∧
  ∃ first_block values,
    attr_values "notional" trade_data = Ok values ∧
    deletes first_block = [] ∧
    tr = [CreateTable (archive_spec trade_table) (Reply archive_table);
          LogInfo "Table %s created, wait until exists."
                  [ArgStr (name archive_table)];
          WaitUntilExists archive_table (Reply ())]
         ++ first_block
         ++ put_events archive_table trade_data
         ++ [LogInfo "Put trades into %s." [ArgStr (name archive_table)]]
         ++ delete_events trade_table values
         ++ [LogInfo "Deleted trades from %s." [ArgStr (name trade_table)]].
Proof.
  intros Hrun. split; [done|]. split; [done|].
  apply bind_Ok_inv in Hrun as (created & t0 & w0 & ta & Hcreate & Hrun & ->).
  apply bind_Ok_inv in Hrun as ([] & t1 & w1 & tb & Hfirst & Hrun & ->).
  apply bind_Ok_inv in Hrun as ([] & t2 & w2 & tc & Hsecond & Hrun & ->).
  apply bind_Ok_inv in Hrun as ([] & t3 & w3 & td & Hdelete & Hrun & ->).
  apply triple_inv in Hrun as ([= ->] & <- & _).
  apply archive_create_Ok_inv in Hcreate as ->.
  apply try_Ok_inv, archive_put_all_Ok_inv in Hsecond as ->.
  apply archive_delete_Ok_inv in Hdelete as (values & Hvalues & ->).
  exists t1, values. split; [done|]. split.
  - pose proof (never_deletes_archive_put_first archive_table trade_data w0) as H.
    by rewrite Hfirst in H.
  - by rewrite app_nil_r, <- !app_assoc.
Qed.

End ArchiveOrder.

Lemma archive_trades_order_witness :
  let trade_table := demo_table "trades" in
  let trade_data := [trade "a"; trade "b"; trade "a"] in
  ∃ archive_table tr w',
    archive_trades (answering (complete_with ∅)) trade_table trade_data 0
      = (Ok archive_table, tr, w') ∧
    TableName (archive_spec trade_table) = name trade_table +:+ "-archive" ∧
    KeySchema (archive_spec trade_table) = key_schema trade_table ∧
    ∃ first_block values,
      attr_values "notional" trade_data = Ok values ∧
      deletes first_block = [] ∧
      tr = [CreateTable (archive_spec trade_table) (Reply archive_table);
            LogInfo "Table %s created, wait until exists."
                    [ArgStr (name archive_table)];
            WaitUntilExists archive_table (Reply ())]
           ++ first_block
           ++ put_events archive_table trade_data
           ++ [LogInfo "Put trades into %s." [ArgStr (name archive_table)]]
           ++ delete_events trade_table values
           ++ [LogInfo "Deleted trades from %s." [ArgStr (name trade_table)]].
Proof.
  cbv zeta. do 3 eexists. split; [vm_compute; reflexivity|].
  eapply (archive_trades_order (answering (complete_with ∅)) (demo_table "trades")
            [trade "a"; trade "b"; trade "a"] 0).
  vm_compute; reflexivity.
Defined.

(** ** Runs against the scripted service *)

(** Two rounds: the items of both tables end up under their own table. *)
Example do_batch_get_two_rounds :
  result_of (do_batch_get two_rounds demo_keys 0)
  = Ok {[ "trades" := [trade "a"; trade "b"]; "entities" := [entity "x"] ]}
  ∧ sleeps (trace_of (do_batch_get two_rounds demo_keys 0)) = [1%Z].
Proof. split; vm_compute; reflexivity. Qed.

(** A response that names a table nobody asked for stops the call. *)
Example do_batch_get_foreign_table :
  result_of (do_batch_get
               (answering (complete_with {[ "other" := [trade "a"] ]})) demo_keys 0)
  = Raise (KeyError "other").
Proof. vm_compute; reflexivity. Qed.

(** [archive_trades] on two trades: SDK calls 0 and 1 create the table and
    wait for it, call 2 opens the first batch writer, calls 3 and 4 are its
    puts and call 5 closes it.  A ValidationException at call 5 is logged as
    expected and the function carries on and returns. *)
Example archive_trades_swallows_ValidationException :
  let out := archive_trades
               (scripted (failing_at 5 "ValidationException") (λ _, complete_with ∅))
               (demo_table "trades") [trade "a"; trade "a"] 0 in
  result_of out = Ok (table_of_spec (archive_spec (demo_table "trades"))) ∧
  sdk_failures (trace_of out) = ["ValidationException"] ∧
  LogInfo expected_message [] ∈ trace_of out ∧
  length (deletes (trace_of out)) = 2.
Proof.
  cbv zeta. split; [vm_compute; reflexivity|]. split; [vm_compute; reflexivity|].
  split; [|vm_compute; reflexivity].
  apply list_elem_of_In. vm_compute. tauto.
Qed.

(** Any other code at the same place is logged and raised again. *)
Example archive_trades_reraises_other_codes :
  let out := archive_trades
               (scripted (failing_at 5 "ProvisionedThroughputExceededException")
                         (λ _, complete_with ∅))
               (demo_table "trades") [trade "a"; trade "a"] 0 in
  result_of out = Raise (ClientError "ProvisionedThroughputExceededException") ∧
  last (trace_of out) = Some (LogException unexpected_message []) ∧
  deletes (trace_of out) = [].
Proof. cbv zeta. repeat split; vm_compute; reflexivity. Qed.

(** A ValidationException in the second put block (SDK calls 6 to 9) is
    raised again as well. *)
Example archive_trades_reraises_later_ValidationException :
  let out := archive_trades
               (scripted (failing_at 9 "ValidationException") (λ _, complete_with ∅))
               (demo_table "trades") [trade "a"; trade "a"] 0 in
  result_of out = Raise (ClientError "ValidationException") ∧
  last (trace_of out)
  = Some (LogException "Couldn't put trades into %s." [ArgStr "trades-archive"]) ∧
  deletes (trace_of out) = [].
Proof. cbv zeta. repeat split; vm_compute; reflexivity. Qed.

(** ** More on the retry loop *)

Ltac loop_cases :=
  rewrite do_batch_get_loop_unfold;
  let Htest := fresh "Htest" in
  destruct (_ <? max_tries)%Z eqn:Htest;
  [ let resp := fresh "resp" in
    let w1 := fresh "w1" in
    let Hcall := fresh "Hcall" in
    destruct (dynamodb_batch_get_item _ _ _) as [[resp|?] w1] eqn:Hcall;
    [ let Hcollect := fresh "Hcollect" in
      let Hun := fresh "Hun" in
      let Hsize := fresh "Hsize" in
      let Hrec := fresh "Hrec" in
      cbv zeta;
      destruct (collect resp _) as [?retrieved1| |] eqn:Hcollect;
      [ destruct (UnprocessedKeys resp) as [?unprocessed|] eqn:Hun;
        [ destruct (0 <? Z.of_nat (size _))%Z eqn:Hsize;
          [ destruct (do_batch_get_loop _ _ _ _ _ _ _) as [[?r ?tr'] ?w2] eqn:Hrec
          | ]
        | ]
      | | ]
    | ]
  | ].

Section RetryChain.
Context {World : Type} (boto3 : Boto3 World).

(** Past the last try the loop does nothing at all. *)
Lemma do_batch_get_loop_done fuel tries s
    (keys : gmap string KeysAndAttributes)
    (acc : gmap string (list (gmap string string))) w :
  (max_tries ≤ tries)%Z →
  trace_of (do_batch_get_loop boto3 fuel tries s keys acc w) = [].
Proof.
  intros Hge. destruct fuel as [|fuel]; [done|].
  rewrite do_batch_get_loop_unfold.
  by rewrite (proj2 (Z.ltb_ge _ _) Hge).
Qed.

Lemma do_batch_get_loop_chain fuel tries s
    (keys : gmap string KeysAndAttributes)
    (acc : gmap string (list (gmap string string))) w :
  let tr := trace_of (do_batch_get_loop boto3 fuel tries s keys acc w) in
  requests tr `prefix_of` keys :: (unprocessed_of <$> responses tr).
Proof.
  revert tries s keys acc w.
  induction fuel as [|fuel IH]; intros tries s keys acc w; cbv zeta.
  { apply prefix_nil. }
  loop_cases; unfold trace_of; cbn [fst snd];
    try (apply prefix_nil); try (by apply prefix_cons, prefix_nil).
  specialize (IH (tries + 1)%Z (next_sleepy_time tries s) unprocessed retrieved1 w1).
  rewrite Hrec in IH. unfold trace_of in IH. cbn [fst snd] in IH.
  destruct (observe_attempt keys (Reply resp) tries s unprocessed tr')
    as (-> & _ & -> & _).
  cbn. apply prefix_cons. unfold unprocessed_of at 1. by rewrite Hun.
Qed.

Lemma do_batch_get_loop_counts fuel tries s
    (keys : gmap string KeysAndAttributes)
    (acc : gmap string (list (gmap string string))) w :
  (tries < max_tries)%Z → (max_tries - tries < Z.of_nat fuel)%Z →
  let tr := trace_of (do_batch_get_loop boto3 fuel tries s keys acc w) in
  length (requests tr) = S (length (sleeps tr)) ∧
  (Z.of_nat (length (requests tr)) ≤ max_tries - tries)%Z.
Proof.
  revert tries s keys acc w.
  induction fuel as [|fuel IH]; intros tries s keys acc w Hlt Hfuel; [lia|].
  cbv zeta. rewrite do_batch_get_loop_unfold.
  rewrite (proj2 (Z.ltb_lt _ _) Hlt).
  destruct (dynamodb_batch_get_item _ _ _) as [[resp|?] w1] eqn:Hcall;
    [|unfold trace_of; cbn; lia].
  cbv zeta.
  destruct (collect resp acc) as [acc1| |]; [|unfold trace_of; cbn; lia..].
  destruct (UnprocessedKeys resp) as [u|]; [|unfold trace_of; cbn; lia].
  destruct (0 <? Z.of_nat (size u))%Z; [|unfold trace_of; cbn; lia].
  destruct (do_batch_get_loop _ _ _ _ _ _ _) as [[r' tr'] w2] eqn:Hrec.
  unfold trace_of. cbn [fst snd].
  destruct (observe_attempt keys (Reply resp) tries s u tr') as (-> & _ & _ & ->).
  destruct (tries + 1 <? max_tries)%Z eqn:Hnext.
  - apply Z.ltb_lt in Hnext.
    assert (max_tries - (tries + 1) < Z.of_nat fuel)%Z as Hfuel' by lia.
    pose proof (IH (tries + 1)%Z (next_sleepy_time tries s) u acc1 w1 Hnext Hfuel')
      as IH'.
    cbv zeta in IH'. rewrite Hrec in IH'. unfold trace_of in IH'. cbn [fst snd] in IH'.
    cbn. lia.
  - apply Z.ltb_ge in Hnext.
    pose proof (do_batch_get_loop_done fuel (tries + 1) (next_sleepy_time tries s)
                  u acc1 w1 Hnext) as Hdone.
    rewrite Hrec in Hdone. unfold trace_of in Hdone. cbn [fst snd] in Hdone.
    subst tr'. cbn. lia.
Qed.

(** A ClientError of the service ends the loop on the spot. *)
Lemma do_batch_get_loop_fails fuel tries s
    (keys : gmap string KeysAndAttributes)
    (acc : gmap string (list (gmap string string))) w c :
  let out := do_batch_get_loop boto3 fuel tries s keys acc w in
  Fails c ∈ replies (trace_of out) →
  result_of out = Raise (ClientError c) ∧
  ∃ req, last (trace_of out) = Some (BatchGetItem req (Fails c)).
Proof.
  revert tries s keys acc w.
  induction fuel as [|fuel IH]; intros tries s keys acc w; cbv zeta.
  { by intros ?%elem_of_nil. }
  loop_cases; unfold trace_of, result_of; cbn [fst snd];
    try (by intros ?%elem_of_nil);
    try (by intros [?|?%elem_of_nil]%elem_of_cons).
  - specialize (IH (tries + 1)%Z (next_sleepy_time tries s) unprocessed retrieved1 w1).
    rewrite Hrec in IH. unfold trace_of, result_of in IH. cbn [fst snd] in IH.
    destruct (observe_attempt keys (Reply resp) tries s unprocessed tr')
      as (_ & -> & _ & _).
    intros [?|Hin]%elem_of_cons; [done|].
    destruct (IH Hin) as (-> & req & Hlast). split; [done|]. exists req.
    destruct tr' as [|e tr']; [done|].
    rewrite app_comm_cons, last_app. by rewrite Hlast.
  - intros [[= ->]|?%elem_of_nil]%elem_of_cons; [|done].
    split; [done|]. by exists keys.
Qed.

(** A loop that returns has seen unprocessed keys in every response but the
    last, and stops on an empty UnprocessedKeys or on the last try. *)
Lemma do_batch_get_loop_stops fuel tries s
    (keys : gmap string KeysAndAttributes)
    (acc : gmap string (list (gmap string string))) w ret tr w' :
  (tries < max_tries)%Z →
  do_batch_get_loop boto3 fuel tries s keys acc w = (Ok ret, tr, w') →
  ∃ earlier final,
    responses tr = earlier ++ [final] ∧
    Forall (λ resp, unprocessed_of resp ≠ ∅) earlier ∧
    (UnprocessedKeys final = Some ∅ ∨
     Z.of_nat (length (responses tr)) = max_tries - tries)%Z.
Proof.
  revert tries s keys acc w ret tr w'.
  induction fuel as [|fuel IH]; intros tries s keys acc w ret tr w' Hlt; [done|].
  rewrite do_batch_get_loop_unfold. rewrite (proj2 (Z.ltb_lt _ _) Hlt).
  destruct (dynamodb_batch_get_item _ _ _) as [[resp|?] w1] eqn:Hcall; [|done].
  cbv zeta. destruct (collect resp acc) as [acc1| |]; try done.
  destruct (UnprocessedKeys resp) as [u|] eqn:Hun; [|done].
  destruct (0 <? Z.of_nat (size u))%Z eqn:Hsize.
  - destruct (do_batch_get_loop _ _ _ _ _ _ _) as [[r' tr'] w2] eqn:Hrec.
    intros (-> & <- & <-)%triple_inv.
    destruct (observe_attempt keys (Reply resp) tries s u tr') as (_ & _ & -> & _).
    assert (unprocessed_of resp ≠ ∅) as Hne.
    { unfold unprocessed_of. rewrite Hun. cbn. intros ->.
      by rewrite map_size_empty in Hsize. }
    destruct (tries + 1 <? max_tries)%Z eqn:Hnext.
    + apply Z.ltb_lt in Hnext.
      destruct (IH _ _ _ _ _ _ _ _ Hnext Hrec) as (earlier & final & Hresp & Hall & Hend).
      exists (resp :: earlier), final. cbn [app]. rewrite Hresp.
      split; [done|]. split; [by constructor|].
      destruct Hend as [Hend|Hend]; [by left|right].
      rewrite <- Hresp. cbn [length]. lia.
    + apply Z.ltb_ge in Hnext.
      pose proof (do_batch_get_loop_done fuel (tries + 1) (next_sleepy_time tries s)
                    u acc1 w1 Hnext) as Hdone.
      rewrite Hrec in Hdone. unfold trace_of in Hdone. cbn [fst snd] in Hdone.
      subst tr'. exists [], resp. split; [done|]. split; [done|].
      right. cbn. lia.
  - intros (_ & <- & _)%triple_inv. exists [], resp. split; [done|]. split; [done|].
    left. rewrite Hun. f_equal. apply map_size_empty_iff.
    apply Z.ltb_ge in Hsize. lia.
Qed.

End RetryChain.

Section RetryExtras.
Context {World : Type} (boto3 : Boto3 World).

(** X1.  The first request of [do_batch_get] is [batch_keys], and every
    later request asks for exactly the UnprocessedKeys of the response
    before it: a retry never asks again for a key that was processed. *)
Theorem do_batch_get_retries_only_unprocessed (keys : gmap string KeysAndAttributes) w :
  let tr := trace_of (do_batch_get boto3 keys w) in
  head (requests tr) = Some keys ∧
  requests tr `prefix_of` keys :: (unprocessed_of <$> responses tr).
Proof.
  cbv zeta. unfold do_batch_get.
  pose proof (do_batch_get_loop_chain boto3 (S (Z.to_nat max_tries)) 0 1 keys
                ((λ _, []) <$> keys) w) as Hchain.
  assert (0 < max_tries)%Z as Htries by done.
  assert (max_tries - 0 < Z.of_nat (S (Z.to_nat max_tries)))%Z as Hfuel by (cbn; lia).
  pose proof (do_batch_get_loop_counts boto3 (S (Z.to_nat max_tries)) 0 1 keys
                ((λ _, []) <$> keys) w Htries Hfuel) as [Hlen _].
  cbv zeta in Hchain. split; [|done].
  destruct (requests _) as [|req reqs]; [done|].
  by apply prefix_cons_inv_1 in Hchain as ->.
Qed.

(** X2.  Every run of [do_batch_get], whatever the service answers, makes
    between one and five requests and sleeps exactly once between two
    consecutive requests: one sleep fewer than requests. *)
Theorem do_batch_get_attempts (keys : gmap string KeysAndAttributes) w :
  let tr := trace_of (do_batch_get boto3 keys w) in
  length (requests tr) = S (length (sleeps tr)) ∧
  1 ≤ length (requests tr) ≤ 5.
Proof.
  cbv zeta. unfold do_batch_get.
  assert (0 < max_tries)%Z as Htries by done.
  assert (max_tries - 0 < Z.of_nat (S (Z.to_nat max_tries)))%Z as Hfuel by (cbn; lia).
  pose proof (do_batch_get_loop_counts boto3 (S (Z.to_nat max_tries)) 0 1 keys
                ((λ _, []) <$> keys) w Htries Hfuel) as [Hlen Hmax].
  cbv zeta in Hlen, Hmax. change (max_tries - 0)%Z with 5%Z in Hmax.
  split; [done|]. lia.
Qed.

(** X3.  [do_batch_get] does not retry after a ClientError: when the
    service fails a request, that request is the last event of the run and
    the ClientError is what the call raises, whatever was retrieved so far
    being lost. *)
Theorem do_batch_get_stops_on_ClientError (keys : gmap string KeysAndAttributes)
    w i code :
  let out := do_batch_get boto3 keys w in
  replies (trace_of out) !! i = Some (Fails code) →
  result_of out = Raise (ClientError code) ∧
  ∃ req, last (trace_of out) = Some (BatchGetItem req (Fails code)).
Proof.
  cbv zeta. intros Hi. apply do_batch_get_loop_fails.
  apply list_elem_of_lookup. by exists i.
Qed.

(** X4.  A run of [do_batch_get] that returns normally stopped for one of
    two reasons: the last response had an empty UnprocessedKeys, or it was
    the fifth.  Every response before the last reported unprocessed keys. *)
Theorem do_batch_get_stops_early (keys : gmap string KeysAndAttributes)
    w retrieved tr w' :
  do_batch_get boto3 keys w = (Ok retrieved, tr, w') →
  ∃ earlier final,
    responses tr = earlier ++ [final] ∧
    Forall (λ resp, unprocessed_of resp ≠ ∅) earlier ∧
    (UnprocessedKeys final = Some ∅ ∨ length (responses tr) = 5).
Proof.
  unfold do_batch_get. intros Hrun.
  assert (0 < max_tries)%Z as Htries by done.
  destruct (do_batch_get_loop_stops boto3 _ _ _ _ _ _ _ _ _ Htries Hrun)
    as (earlier & final & Hresp & Hall & Hend).
  exists earlier, final. split; [done|]. split; [done|].
  destruct Hend as [Hend|Hend]; [by left|right].
  change (max_tries - 0)%Z with 5%Z in Hend. lia.
Qed.

(** X5.  One call of [do_batch_get] sleeps for at most 15 seconds in
    total. *)
Theorem do_batch_get_sleeps_at_most_15_seconds (keys : gmap string KeysAndAttributes) w :
  (foldr Z.add 0 (sleeps (trace_of (do_batch_get boto3 keys w))) ≤ 15)%Z.
Proof.
  unfold do_batch_get.
  destruct (do_batch_get_loop_sleeps boto3 (S (Z.to_nat max_tries)) 0 1 keys
              ((λ _, []) <$> keys) w) as [Hrec Hlen].
  cbv zeta in Hrec, Hlen. change (Z.max 0 (max_tries - 0 - 1)) with 4%Z in Hlen.
  rewrite Hrec.
  destruct (length (sleeps _)) as [|[|[|[|[|n]]]]]; [| | | | |lia]; cbn; lia.
Qed.

End RetryExtras.

Lemma do_batch_get_stops_on_ClientError_witness :
  let out := do_batch_get
               (scripted (failing_at 1 "ProvisionedThroughputExceededException")
                         (λ _, busy_response))
               demo_keys 0 in
  replies (trace_of out) !! 1
    = Some (Fails "ProvisionedThroughputExceededException") ∧
  result_of out = Raise (ClientError "ProvisionedThroughputExceededException") ∧
  ∃ req, last (trace_of out)
         = Some (BatchGetItem req (Fails "ProvisionedThroughputExceededException")).
Proof.
  cbv zeta. split; [vm_compute; reflexivity|].
  apply (do_batch_get_stops_on_ClientError
           (scripted (failing_at 1 "ProvisionedThroughputExceededException")
                     (λ _, busy_response)) demo_keys 0 1).
  vm_compute; reflexivity.
Defined.

Lemma do_batch_get_stops_early_witness :
  ∃ retrieved tr w',
    do_batch_get two_rounds demo_keys 0 = (Ok retrieved, tr, w') ∧
    ∃ earlier final,
      responses tr = earlier ++ [final] ∧
      Forall (λ resp, unprocessed_of resp ≠ ∅) earlier ∧
      (UnprocessedKeys final = Some ∅ ∨ length (responses tr) = 5).
Proof.
  do 3 eexists. split; [vm_compute; reflexivity|].
  eapply (do_batch_get_stops_early two_rounds demo_keys 0).
  vm_compute; reflexivity.
Defined.

(** ** Events a computation never produces *)

Section Omits.
Context {World : Type} {B : Type} (f : event → option B).

Lemma omits_ret {A} (a : A) : omits f (ret a : M World A).
Proof. by intros w. Qed.

Lemma omits_raise {A} e : omits f (raise e : M World A).
Proof. by intros w. Qed.

Lemma omits_lift {A} (r : result A) : omits f (lift r : M World A).
Proof. by intros w. Qed.

Lemma omits_emit e : f e = None → omits f (emit e : M World unit).
Proof. intros He w. unfold trace_of, emit. cbn. by rewrite He. Qed.

Lemma omits_sdk {A} (op : World → reply A * World) (ev : reply A → event) :
  (∀ r, f (ev r) = None) → omits f (sdk op ev).
Proof.
  intros Hev w. unfold trace_of, sdk.
  destruct (op w) as [[a|c] w1]; cbn; by rewrite Hev.
Qed.

Lemma omits_bind {A C} (m : M World A) (k : A → M World C) :
  omits f m → (∀ a, omits f (k a)) → omits f (bind m k).
Proof.
  intros Hm Hk w. specialize (Hm w). unfold bind.
  destruct (m w) as [[[a|e|] t1] w1]; try done.
  specialize (Hk a w1). destruct (k a w1) as [[r t2] w2].
  unfold trace_of in *. cbn [fst snd] in *. by rewrite omap_app, Hm, Hk.
Qed.

Lemma omits_for {A} (xs : list A) (body : A → M World unit) :
  (∀ x, omits f (body x)) → omits f (for_ xs body).
Proof.
  intros Hbody. induction xs as [|x xs IH]; cbn.
  - apply omits_ret.
  - by apply omits_bind.
Qed.

Lemma omits_with {A} (enter exit : M World unit) (body : M World A) :
  omits f enter → omits f exit → omits f body → omits f (with_ enter exit body).
Proof.
  intros Henter Hexit Hbody w. specialize (Henter w). unfold with_.
  destruct (enter w) as [[[[]|e0|] t0] w0]; try done.
  specialize (Hbody w0). destruct (body w0) as [[rb t1] w1].
  specialize (Hexit w1). destruct (exit w1) as [[rx t2] w2].
  unfold trace_of in *. cbn [fst snd] in *.
  destruct rb as [b|eb|]; destruct rx as [[]|ex|]; cbn [fst snd];
    rewrite ?omap_app, ?Henter, ?Hbody, ?Hexit; done.
Qed.

Lemma omits_try {A} (body : M World A) (handler : string → M World A) :
  omits f body → (∀ c, omits f (handler c)) →
  omits f (try_except_ClientError body handler).
Proof.
  intros Hbody Hh w. specialize (Hbody w). unfold try_except_ClientError.
  destruct (body w) as [[[a|[c| |]|] t1] w1]; try done.
  specialize (Hh c w1). destruct (handler c w1) as [[r t2] w2].
  unfold trace_of in *. cbn [fst snd] in *. by rewrite omap_app, Hbody, Hh.
Qed.

(** The retry loop produces requests, sleeps and its two log records. *)
Lemma omits_do_batch_get_loop (boto3 : Boto3 World) fuel tries s
    (keys : gmap string KeysAndAttributes)
    (acc : gmap string (list (gmap string string))) :
  (∀ req r, f (BatchGetItem req r) = None) →
  (∀ secs, f (Sleep secs) = None) →
  (∀ args, f (LogInfo "%s unprocessed keys returned. Sleep, then retry." args) = None) →
  (∀ args, f (LogInfo "Sleeping for %s seconds." args) = None) →
  omits f (do_batch_get_loop boto3 fuel tries s keys acc).
Proof.
  intros Hget Hsleep Hlog1 Hlog2. revert tries s keys acc.
  induction fuel as [|fuel IH]; intros tries s keys acc; cbn [do_batch_get_loop].
  { by intros w. }
  destruct (tries <? max_tries)%Z; [|apply omits_ret].
  apply omits_bind; [by apply omits_sdk|intros response].
  apply omits_bind; [apply omits_lift|intros acc1].
  destruct (UnprocessedKeys response) as [u|]; [|apply omits_raise].
  destruct (0 <? Z.of_nat (size u))%Z; [|apply omits_ret].
  apply omits_bind; [by apply omits_emit|intros _].
  apply omits_bind; [|intros s'; apply IH].
  destruct (tries + 1 <? max_tries)%Z; [|apply omits_ret].
  apply omits_bind; [by apply omits_emit|intros _].
  apply omits_bind; [by apply omits_emit|intros _].
  apply omits_ret.
Qed.

End Omits.

Section ReadOnly.
Context {World : Type} (boto3 : Boto3 World).

(** X6.  [do_batch_get] and [get_batch_data] only read: the one SDK
    operation they ever call is [batch_get_item].  No table is created, no
    batch writer opened, no item put or deleted, in any run. *)
Theorem batch_get_is_read_only :
  (∀ (keys : gmap string KeysAndAttributes) w,
     other_calls (trace_of (do_batch_get boto3 keys w)) = []) ∧
  (∀ t1 l1 t2 l2 t3 l3 w,
     other_calls (trace_of (get_batch_data boto3 t1 l1 t2 l2 t3 l3 w)) = []).
Proof.
  assert (∀ keys : gmap string KeysAndAttributes,
            omits other_call (do_batch_get boto3 keys)) as Hget.
  { intros keys. by apply omits_do_batch_get_loop. }
  split; [intros keys w; apply Hget|].
  intros t1 l1 t2 l2 t3 l3. unfold get_batch_data.
  apply omits_bind; [apply omits_lift|intros batch_keys].
  apply omits_try.
  - apply omits_bind; [apply Hget|intros retrieved].
    apply omits_bind; [|intros _; apply omits_ret].
    apply omits_for. intros kv. by apply omits_emit.
  - intros c. apply omits_bind; [by apply omits_emit|intros _; apply omits_raise].
Qed.

End ReadOnly.

(** ** One log record per vendor error *)

Section LoggedOnce.
Context {World : Type} (boto3 : Boto3 World).

Abbreviation exception_log :=
  (λ e : event, match e with LogException fmt _ => Some fmt | _ => None end).

Lemma logged_once_try {A} (body : M World A) fmt args w :
  omits exception_log body →
  logged_once (try_except_ClientError body
                 (λ code, bind (log_exception fmt args)
                               (λ _, raise (ClientError code))) w).
Proof.
  intros Hbody. specialize (Hbody w). unfold try_except_ClientError.
  destruct (body w) as [[[a|[c| |]|] t1] w1];
    unfold logged_once, exception_log_count, exception_logs, result_of, trace_of in *;
    cbn [fst snd] in *; try (by rewrite Hbody).
  cbn. by rewrite omap_app, Hbody.
Qed.

Lemma logged_once_bind {A C} (m : M World A) (k : A → M World C) w :
  logged_once (m w) →
  (∀ a t1 w1, m w = (Ok a, t1, w1) → logged_once (k a w1)) →
  logged_once (bind m k w).
Proof.
  intros Hm Hk. unfold bind.
  destruct (m w) as [[[a|e|] t1] w1]; try done.
  specialize (Hk a t1 w1 eq_refl). destruct (k a w1) as [[r t2] w2].
  unfold logged_once, exception_log_count, exception_logs, result_of, trace_of in *.
  cbn [fst snd] in *. rewrite omap_app, length_app, Hm, Hk. done.
Qed.

Lemma logged_once_silent {A} (m : M World A) w :
  omits exception_log m → (∀ c, result_of (m w) ≠ Raise (ClientError c)) →
  logged_once (m w).
Proof.
  intros Hm Hno. specialize (Hm w).
  unfold logged_once, exception_log_count, exception_logs. rewrite Hm.
  destruct (result_of (m w)) as [|[]|]; try done. by destruct (Hno code).
Qed.

Lemma omits_exception_log_put_all table data :
  omits exception_log (archive_put_all boto3 table data).
Proof.
  apply omits_bind; [|intros _; by apply omits_emit].
  apply omits_with; [by apply omits_sdk..|].
  apply omits_for. intros item. by apply omits_sdk.
Qed.

Lemma create_table_logged_once table_name schema w :
  logged_once (create_table boto3 table_name schema w).
Proof.
  apply logged_once_try. cbv zeta.
  apply omits_bind; [by apply omits_sdk|intros table].
  apply omits_bind; [by apply omits_sdk|intros _].
  apply omits_bind; [by apply omits_emit|intros _; apply omits_ret].
Qed.

Lemma fill_table_logged_once table table_data w :
  logged_once (fill_table boto3 table table_data w).
Proof.
  unfold fill_table.
  do 5 (apply logged_once_bind;
        [by apply logged_once_silent; [apply omits_emit|]|];
        let w' := fresh "w" in intros _ _ w' _; clear w; rename w' into w).
  apply logged_once_try.
  apply omits_bind; [|intros _; by apply omits_emit].
  apply omits_with; [by apply omits_sdk..|].
  apply omits_for. intros item.
  apply omits_bind; [by apply omits_sdk|intros _; by apply omits_emit].
Qed.

Lemma get_batch_data_logged_once t1 l1 t2 l2 t3 l3 w :
  logged_once (get_batch_data boto3 t1 l1 t2 l2 t3 l3 w).
Proof.
  unfold get_batch_data. apply logged_once_bind.
  { apply logged_once_silent; [apply omits_lift|].
    intros c. unfold lift, result_of. cbn. apply get_batch_data_keys_not_ClientError. }
  intros batch_keys _ w1 _. apply logged_once_try.
  apply omits_bind; [by apply omits_do_batch_get_loop|intros retrieved].
  apply omits_bind; [|intros _; apply omits_ret].
  apply omits_for. intros kv. by apply omits_emit.
Qed.

Lemma archive_put_first_logged_once archive_table trade_data w :
  logged_once (archive_put_first boto3 archive_table trade_data w).
Proof.
  pose proof (omits_exception_log_put_all archive_table trade_data w) as Hbody.
  unfold archive_put_first, try_except_ClientError.
  destruct (archive_put_all _ _ _ _) as [[[a|[c| |]|] t1] w1];
    unfold logged_once, exception_log_count, exception_logs, result_of, trace_of in *;
    cbn [fst snd] in *; try (by rewrite Hbody).
  destruct (String.eqb c "ValidationException"); cbn;
    by rewrite omap_app, Hbody.
Qed.

Lemma archive_trades_logged_once trade_table trade_data w :
  logged_once (archive_trades boto3 trade_table trade_data w).
Proof.
  unfold archive_trades. apply logged_once_bind.
  { apply logged_once_try. cbv zeta.
    apply omits_bind; [by apply omits_sdk|intros table].
    apply omits_bind; [by apply omits_emit|intros _].
    apply omits_bind; [by apply omits_sdk|intros _; apply omits_ret]. }
  intros archive_table _ w0 _.
  apply logged_once_bind; [apply archive_put_first_logged_once|].
  intros _ _ w1 _. unfold archive_finish.
  apply logged_once_bind; [apply logged_once_try, omits_exception_log_put_all|].
  intros _ _ w2 _. apply logged_once_bind.
  { apply logged_once_try.
    apply omits_bind; [|intros _; by apply omits_emit].
    apply omits_with; [by apply omits_sdk..|].
    apply omits_for. intros item.
    destruct (item !! "notional"); [by apply omits_sdk|apply omits_raise]. }
  intros _ _ w3 _. by apply logged_once_silent; [apply omits_ret|].
Qed.

(** X7.  In every run of [create_table], [fill_table], [get_batch_data]
    and [archive_trades] the number of [logger.exception] records is one
    when the function raises a ClientError and zero otherwise: an error is
    never logged twice on its way out, an exception that is not a
    ClientError (KeyError, IndexError) is not logged at all, and nothing is
    logged as an exception in a run that returns. *)
Theorem exceptions_logged_exactly_once :
  (∀ table_name schema w, logged_once (create_table boto3 table_name schema w)) ∧
  (∀ table table_data w, logged_once (fill_table boto3 table table_data w)) ∧
  (∀ t1 l1 t2 l2 t3 l3 w, logged_once (get_batch_data boto3 t1 l1 t2 l2 t3 l3 w)) ∧
  (∀ trade_table trade_data w,
     logged_once (archive_trades boto3 trade_table trade_data w)).
Proof.
  split; [apply create_table_logged_once|].
  split; [apply fill_table_logged_once|].
  split; [apply get_batch_data_logged_once|apply archive_trades_logged_once].
Qed.

End LoggedOnce.

(** ** [create_table] and [fill_table] *)

Section Tables.
Context {World : Type} (boto3 : Boto3 World).

(** X8.  A run of [create_table] has one of three shapes.  It returns the
    table the SDK created, after waiting for it and logging the creation;
    or the creation fails, nothing is waited for, and the error is logged
    and raised; or the wait fails, the creation is not logged, and the error
    is logged and raised.  A table is returned only once the wait for it
    succeeded. *)
Theorem create_table_runs table_name schema w :
  let spec := create_table_spec table_name schema in
  let failed := LogException "Couldn't create TimeSeries table." [] in
  let out := create_table boto3 table_name schema w in
  (∃ table w', out = (Ok table,
                      [CreateTable spec (Reply table);
                       WaitUntilExists table (Reply ());
                       LogInfo "Created table %s." [ArgStr (name table)]], w')) ∨
  (∃ code w', out = (Raise (ClientError code),
                     [CreateTable spec (Fails code); failed], w')) ∨
  (∃ table code w', out = (Raise (ClientError code),
                           [CreateTable spec (Reply table);
                            WaitUntilExists table (Fails code); failed], w')).
Proof.
  cbv zeta. unfold create_table, try_except_ClientError, bind, sdk.
  destruct (dynamodb_create_table boto3 _ w) as [[table|code] w1].
  - destruct (table_wait_until_exists boto3 table w1) as [[[]|code] w2].
    + left. exists table, w2. reflexivity.
    + right. right. exists table, code, w2. reflexivity.
  - right. left. exists code, w1. reflexivity.
Qed.

Lemma fill_loop_Ok_inv table (table_data : list (gmap string string)) w t w' :
  for_ table_data (λ item,
    bind (put_item boto3 table item) (λ _, emit (Print (PrItem item)))) w
    = (Ok (), t, w') →
  t = table_data ≫= fill_events table.
Proof.
  revert w t. induction table_data as [|item data IH]; intros w t; cbn [for_].
  - by intros (_ & <- & _)%triple_inv.
  - intros ([] & t1 & w1 & t2 & Hitem & Hrest & ->)%bind_Ok_inv.
    apply bind_Ok_inv in Hitem as ([] & ta & wa & tb & Hput & Hprint & ->).
    apply sdk_Ok_inv in Hput as ->. apply emit_inv in Hprint as (_ & -> & _).
    by rewrite (IH _ _ Hrest).
Qed.

(** X9.  A run of [fill_table] that returns has put every item of
    [table_data] exactly once, in order, each followed by its print, inside
    one batch writer block on [table]; for an empty [table_data] the writer
    is still opened and closed. *)
Theorem fill_table_returns table table_data w tr w' :
  fill_table boto3 table table_data w = (Ok (), tr, w') →
  tr = fill_header table table_data
       ++ BatchWriterEnter table (Reply ())
       :: (table_data ≫= fill_events table)
       ++ [BatchWriterExit table (Reply ());
           LogInfo "Loaded data into table %s." [ArgStr (name table)]] ∧
  puts tr = (λ item, (table, item)) <$> table_data.
Proof.
  unfold fill_table. intros Hrun.
  do 5 (apply bind_Ok_inv in Hrun as ([] & ? & ? & ? & (_ & -> & ->)%emit_inv & Hrun & ->)).
  apply try_Ok_inv in Hrun.
  apply bind_Ok_inv in Hrun as ([] & t1 & w1 & t2 & Hwith & Hlog & ->).
  apply emit_inv in Hlog as (_ & -> & _).
  apply with_batch_writer_Ok_inv in Hwith as (w0 & t0 & w2 & Hfor & ->).
  apply fill_loop_Ok_inv in Hfor as ->.
  split.
  - unfold fill_header. cbn [app]. by rewrite <- app_assoc.
  - unfold puts. cbn. rewrite omap_app. cbn. rewrite app_nil_r.
    clear. induction table_data as [|item data IH]; [done|]. cbn. by rewrite IH.
Qed.

End Tables.

Lemma fill_table_returns_witness :
  let table := demo_table "trades" in
  let table_data := [trade "a"; trade "b"] in
  ∃ tr w',
    fill_table (answering (complete_with ∅)) table table_data 0 = (Ok (), tr, w') ∧
    tr = fill_header table table_data
         ++ BatchWriterEnter table (Reply ())
         :: (table_data ≫= fill_events table)
         ++ [BatchWriterExit table (Reply ());
             LogInfo "Loaded data into table %s." [ArgStr (name table)]] ∧
    puts tr = (λ item, (table, item)) <$> table_data.
Proof.
  cbv zeta. do 2 eexists. split; [vm_compute; reflexivity|].
  eapply (fill_table_returns (answering (complete_with ∅)) (demo_table "trades")
            [trade "a"; trade "b"] 0).
  vm_compute; reflexivity.
Defined.

(** ** Batch writers: closed once opened, and what goes through them *)

Section Writers.
Context {World : Type}.

Abbreviation opening :=
  (λ e : event, match e with BatchWriterEnter t (Reply _) => Some t | _ => None end).
Abbreviation closing :=
  (λ e : event, match e with BatchWriterExit t _ => Some t | _ => None end).

Lemma fuel_free_sdk {A} (op : World → reply A * World) (ev : reply A → event) :
  fuel_free (sdk op ev).
Proof. intros w. unfold sdk, result_of. by destruct (op w) as [[a|c] w1]. Qed.

Lemma fuel_free_bind {A C} (m : M World A) (k : A → M World C) :
  fuel_free m → (∀ a, fuel_free (k a)) → fuel_free (bind m k).
Proof.
  intros Hm Hk w. specialize (Hm w). unfold bind.
  destruct (m w) as [[[a|e|] t1] w1]; try done.
  specialize (Hk a w1). by destruct (k a w1) as [[r t2] w2].
Qed.

Lemma fuel_free_for {A} (xs : list A) (body : A → M World unit) :
  (∀ x, fuel_free (body x)) → fuel_free (for_ xs body).
Proof.
  intros Hbody. induction xs as [|x xs IH]; cbn; [done|].
  by apply fuel_free_bind.
Qed.

Lemma balanced_omits {A} (m : M World A) :
  omits opening m → omits closing m → balanced m.
Proof. intros Ho Hc w. unfold closed, opened. by rewrite Ho, Hc. Qed.

Lemma balanced_bind {A C} (m : M World A) (k : A → M World C) :
  balanced m → (∀ a, balanced (k a)) → balanced (bind m k).
Proof.
  intros Hm Hk w. specialize (Hm w). unfold bind.
  destruct (m w) as [[[a|e|] t1] w1]; try done.
  specialize (Hk a w1). destruct (k a w1) as [[r t2] w2].
  unfold closed, opened, trace_of in *. cbn [fst snd] in *.
  by rewrite !omap_app, Hm, Hk.
Qed.

Lemma balanced_try {A} (body : M World A) (handler : string → M World A) :
  balanced body → (∀ c, balanced (handler c)) →
  balanced (try_except_ClientError body handler).
Proof.
  intros Hbody Hh w. specialize (Hbody w). unfold try_except_ClientError.
  destruct (body w) as [[[a|[c| |]|] t1] w1]; try done.
  specialize (Hh c w1). destruct (handler c w1) as [[r t2] w2].
  unfold closed, opened, trace_of in *. cbn [fst snd] in *.
  by rewrite !omap_app, Hbody, Hh.
Qed.

(** The with statement: once [__enter__] succeeded, [__exit__] runs,
    whatever the body did. *)
Lemma balanced_with_batch_writer {A} (boto3 : Boto3 World) table (body : M World A) :
  omits opening body → omits closing body → fuel_free body →
  balanced (with_batch_writer boto3 table body).
Proof.
  intros Ho Hc Hfuel w. unfold with_batch_writer, with_, sdk.
  destruct (table_batch_writer boto3 table w) as [[[]|c] w0]; [|done].
  specialize (Ho w0). specialize (Hc w0). specialize (Hfuel w0).
  destruct (body w0) as [[rb t1] w1].
  unfold result_of, trace_of in *. cbn [fst snd] in *.
  destruct (writer_exit boto3 table w1) as [[[]|c] w2];
    destruct rb as [b|eb|]; try done;
    unfold closed, opened, trace_of; cbn [fst snd];
    rewrite !omap_app, Ho, Hc; done.
Qed.

Section Always.
Context {B : Type} (f : event → option B) (P : list B → Prop) (HP : P []).

Lemma always_omits {A} (m : M World A) : omits f m → always f P m.
Proof using HP. intros Hm w. by rewrite Hm. Qed.

Lemma always_bind_l {A C} (m : M World A) (k : A → M World C) :
  omits f m → (∀ a, always f P (k a)) → always f P (bind m k).
Proof using HP.
  intros Hm Hk w. specialize (Hm w). unfold bind.
  destruct (m w) as [[[a|e|] t1] w1];
    try (unfold trace_of in *; cbn [fst snd] in *; by rewrite Hm).
  specialize (Hk a w1). destruct (k a w1) as [[r t2] w2].
  unfold trace_of in *. cbn [fst snd] in *. by rewrite omap_app, Hm.
Qed.

Lemma always_bind_r {A C} (m : M World A) (k : A → M World C) :
  always f P m → (∀ a, omits f (k a)) → always f P (bind m k).
Proof using Type.
  intros Hm Hk w. specialize (Hm w). unfold bind.
  destruct (m w) as [[[a|e|] t1] w1]; try done.
  specialize (Hk a w1). destruct (k a w1) as [[r t2] w2].
  unfold trace_of in *. cbn [fst snd] in *. by rewrite omap_app, Hk, app_nil_r.
Qed.

Lemma always_with {A} (enter exit : M World unit) (body : M World A) :
  omits f enter → omits f exit → always f P body →
  always f P (with_ enter exit body).
Proof using HP.
  intros Henter Hexit Hbody w. specialize (Henter w). unfold with_.
  destruct (enter w) as [[[[]|e0|] t0] w0];
    try (unfold trace_of in *; cbn [fst snd] in *; by rewrite Henter).
  specialize (Hbody w0). destruct (body w0) as [[rb t1] w1].
  specialize (Hexit w1). destruct (exit w1) as [[rx t2] w2].
  unfold trace_of in *. cbn [fst snd] in *.
  destruct rb as [b|eb|]; destruct rx as [[]|ex|]; cbn [fst snd];
    rewrite ?omap_app, ?Henter, ?Hexit, ?app_nil_r; done.
Qed.

Lemma always_try {A} (body : M World A) (handler : string → M World A) :
  always f P body → (∀ c, omits f (handler c)) →
  always f P (try_except_ClientError body handler).
Proof using Type.
  intros Hbody Hh w. specialize (Hbody w). unfold try_except_ClientError.
  destruct (body w) as [[[a|[c| |]|] t1] w1]; try done.
  specialize (Hh c w1). destruct (handler c w1) as [[r t2] w2].
  unfold trace_of in *. cbn [fst snd] in *. by rewrite omap_app, Hh, app_nil_r.
Qed.

End Always.

Lemma stops_at_failure_nil {A} (planned : list A) : stops_at_failure planned [].
Proof. exists [], planned. split; [done|]. by left. Qed.

Lemma stops_at_failure_failed {A} (x : A) planned code :
  stops_at_failure (x :: planned) [(x, Fails code)].
Proof. exists [], (x :: planned). split; [done|]. right. by exists x, planned, code. Qed.

Lemma stops_at_failure_made {A} (x : A) planned calls :
  stops_at_failure planned calls →
  stops_at_failure (x :: planned) ((x, Reply ()) :: calls).
Proof.
  intros (made & rest & -> & [->|(y & rest' & code & -> & ->)]).
  - exists (x :: made), rest. split; [done|]. by left.
  - exists (x :: made), (y :: rest'). split; [done|]. right.
    by exists y, rest', code.
Qed.

End Writers.

Section WriterExtras.
Context {World : Type} (boto3 : Boto3 World).

Abbreviation putting :=
  (λ e : event, match e with PutItem t i r => Some (t, i, r) | _ => None end).
Abbreviation deleting :=
  (λ e : event, match e with DeleteItem t k r => Some (t, k, r) | _ => None end).

Lemma fill_loop_stops table (table_data : list (gmap string string)) :
  always putting (stops_at_failure ((λ item, (table, item)) <$> table_data))
    (for_ table_data (λ item,
       bind (put_item boto3 table item) (λ _, emit (Print (PrItem item))))).
Proof.
  induction table_data as [|item data IH]; intros w; cbn [for_].
  { apply stops_at_failure_nil. }
  unfold bind at 1, bind at 1, put_item, sdk.
  destruct (writer_put_item boto3 table item w) as [[[]|c] w1].
  - specialize (IH w1). cbn.
    destruct (for_ data _ w1) as [[r t2] w2].
    unfold trace_of in *. cbn [fst snd] in *. cbn.
    by apply stops_at_failure_made.
  - unfold trace_of. cbn. apply stops_at_failure_failed.
Qed.

Lemma delete_loop_stops trade_table (trade_data : list (gmap string string)) :
  always deleting
    (stops_at_failure ((λ k, (trade_table, k)) <$> delete_keys trade_data))
    (for_ trade_data (λ item,
       match item !! "notional" with
       | Some v => delete_item boto3 trade_table
                     ({[ "notional" := v ]} : gmap string string)
       | None => raise (KeyError "notional")
       end)).
Proof.
  induction trade_data as [|item data IH]; intros w; cbn [for_ delete_keys].
  { apply stops_at_failure_nil. }
  unfold bind at 1. destruct (item !! "notional") as [v|];
    [|apply stops_at_failure_nil].
  unfold delete_item, sdk.
  destruct (writer_delete_item boto3 trade_table _ w) as [[[]|c] w1].
  - specialize (IH w1). destruct (for_ data _ w1) as [[r t2] w2].
    unfold trace_of in *. cbn [fst snd] in *. cbn.
    by apply stops_at_failure_made.
  - unfold trace_of. cbn. apply stops_at_failure_failed.
Qed.

(** X10.  In every run of [fill_table] the put requests go through
    [table_data] in order, all on [table]: none is skipped or made twice,
    every put but possibly the last one succeeds, and the first put that
    fails is the last one attempted. *)
Theorem fill_table_puts_in_order table table_data w :
  stops_at_failure ((λ item, (table, item)) <$> table_data)
    (put_calls (trace_of (fill_table boto3 table table_data w))).
Proof.
  revert w.
  change (always putting
            (stops_at_failure ((λ item, (table, item)) <$> table_data))
            (fill_table boto3 table table_data)).
  unfold fill_table.
  do 5 (apply always_bind_l;
        [apply stops_at_failure_nil|by apply omits_emit|intros _]).
  apply always_try.
  - apply always_bind_r; [|intros _; by apply omits_emit].
    apply always_with; [apply stops_at_failure_nil|by apply omits_sdk..|].
    apply fill_loop_stops.
  - intros c. apply omits_bind; [by apply omits_emit|intros _; apply omits_raise].
Qed.

(** X11.  In every run of [archive_trades] the delete requests go through
    the keys [{'notional': item['notional']}] of the items of [trade_data]
    in order, up to the first item without a 'notional' entry, all against
    [trade_table]: nothing else is deleted, every delete but possibly the
    last one succeeds, and the first delete that fails is the last one
    attempted. *)
Theorem archive_trades_deletes_given_keys trade_table trade_data w :
  stops_at_failure ((λ k, (trade_table, k)) <$> delete_keys trade_data)
    (delete_calls (trace_of (archive_trades boto3 trade_table trade_data w))).
Proof.
  revert w.
  change (always deleting
            (stops_at_failure ((λ k, (trade_table, k)) <$> delete_keys trade_data))
            (archive_trades boto3 trade_table trade_data)).
  unfold archive_trades.
  apply always_bind_l; [apply stops_at_failure_nil| |intros archive_table].
  { apply omits_try.
    - cbv zeta. apply omits_bind; [by apply omits_sdk|intros t].
      apply omits_bind; [by apply omits_emit|intros _].
      apply omits_bind; [by apply omits_sdk|intros _; apply omits_ret].
    - intros c. apply omits_bind; [by apply omits_emit|intros _; apply omits_raise]. }
  assert (∀ table, omits deleting (archive_put_all boto3 table trade_data)) as Hput.
  { intros table. apply omits_bind; [|intros _; by apply omits_emit].
    apply omits_with; [by apply omits_sdk..|].
    apply omits_for. intros item. by apply omits_sdk. }
  apply always_bind_l; [apply stops_at_failure_nil| |intros _].
  { apply omits_try; [apply Hput|intros c].
    destruct (String.eqb c "ValidationException").
    - by apply omits_emit.
    - apply omits_bind; [by apply omits_emit|intros _; apply omits_raise]. }
  unfold archive_finish.
  apply always_bind_l; [apply stops_at_failure_nil| |intros _].
  { apply omits_try; [apply Hput|intros c].
    apply omits_bind; [by apply omits_emit|intros _; apply omits_raise]. }
  apply always_bind_r; [|intros _; apply omits_ret].
  apply always_try.
  - apply always_bind_r; [|intros _; by apply omits_emit].
    apply always_with; [apply stops_at_failure_nil|by apply omits_sdk..|].
    apply delete_loop_stops.
  - intros c. apply omits_bind; [by apply omits_emit|intros _; apply omits_raise].
Qed.

Lemma balanced_put_all table data : balanced (archive_put_all boto3 table data).
Proof.
  apply balanced_bind; [|intros _; by apply balanced_omits; apply omits_emit].
  apply balanced_with_batch_writer.
  - apply omits_for. intros item. by apply omits_sdk.
  - apply omits_for. intros item. by apply omits_sdk.
  - apply fuel_free_for. intros item. apply fuel_free_sdk.
Qed.

Lemma balanced_log_and_raise {A} fmt args c :
  balanced (bind (log_exception fmt args) (λ _, raise (ClientError c)) : M World A).
Proof.
  apply balanced_omits;
    (apply omits_bind; [by apply omits_emit|intros _; apply omits_raise]).
Qed.

(** X12.  In every run of [fill_table] and of [archive_trades], each batch
    writer that was opened is closed again, in order: also when a put or a
    delete fails, or when an item has no 'notional' entry. *)
Theorem batch_writers_always_closed :
  (∀ table table_data w,
     closed (trace_of (fill_table boto3 table table_data w))
     = opened (trace_of (fill_table boto3 table table_data w))) ∧
  (∀ trade_table trade_data w,
     closed (trace_of (archive_trades boto3 trade_table trade_data w))
     = opened (trace_of (archive_trades boto3 trade_table trade_data w))).
Proof.
  split.
  - intros table table_data.
    change (balanced (fill_table boto3 table table_data)). unfold fill_table.
    do 5 (apply balanced_bind;
          [by apply balanced_omits; apply omits_emit|intros _]).
    apply balanced_try; [|intros c; apply balanced_log_and_raise].
    apply balanced_bind; [|intros _; by apply balanced_omits; apply omits_emit].
    apply balanced_with_batch_writer.
    + apply omits_for. intros item.
      apply omits_bind; [by apply omits_sdk|intros _; by apply omits_emit].
    + apply omits_for. intros item.
      apply omits_bind; [by apply omits_sdk|intros _; by apply omits_emit].
    + apply fuel_free_for. intros item.
      apply fuel_free_bind; [apply fuel_free_sdk|by intros _ w].
  - intros trade_table trade_data.
    change (balanced (archive_trades boto3 trade_table trade_data)).
    unfold archive_trades.
    apply balanced_bind; [|intros archive_table].
    { apply balanced_try; [|intros c; apply balanced_log_and_raise].
      apply balanced_omits; cbv zeta;
        (apply omits_bind; [by apply omits_sdk|intros t];
         apply omits_bind; [by apply omits_emit|intros _];
         apply omits_bind; [by apply omits_sdk|intros _; apply omits_ret]). }
    apply balanced_bind; [|intros _].
    { apply balanced_try; [apply balanced_put_all|intros c].
      destruct (String.eqb c "ValidationException").
      - by apply balanced_omits; apply omits_emit.
      - apply balanced_log_and_raise. }
    unfold archive_finish. apply balanced_bind; [|intros _].
    { apply balanced_try; [apply balanced_put_all|intros c; apply balanced_log_and_raise]. }
    apply balanced_bind; [|intros _; by apply balanced_omits; apply omits_ret].
    apply balanced_try; [|intros c; apply balanced_log_and_raise].
    apply balanced_bind; [|intros _; by apply balanced_omits; apply omits_emit].
    apply balanced_with_batch_writer.
    + apply omits_for. intros item.
      destruct (item !! "notional"); [by apply omits_sdk|apply omits_raise].
    + apply omits_for. intros item.
      destruct (item !! "notional"); [by apply omits_sdk|apply omits_raise].
    + apply fuel_free_for. intros item.
      destruct (item !! "notional"); [apply fuel_free_sdk|by intros w].
Qed.

End WriterExtras.

(** ** The request and the log records of [get_batch_data] *)

Lemma string_get_None i x : String.get i x = None ↔ String.length x ≤ i.
Proof.
  revert i. induction x as [|c x IH]; intros i; cbn.
  - split; [lia|done].
  - destruct i as [|i]; cbn.
    + split; [done|lia].
    + rewrite IH. lia.
Qed.

Lemma index_keys_indexable attr i xs :
  index_keys attr i xs =
  if indexable i xs
  then Ok ((λ x, ({[ attr := String (default Ascii.zero (String.get i x)) EmptyString ]}
                    : gmap string string)) <$> xs)
  else Raise IndexError.
Proof.
  induction xs as [|x xs IH]; [done|].
  change (indexable i (x :: xs)) with ((i <? String.length x) && indexable i xs).
  cbn [index_keys]. rewrite IH.
  destruct (String.get i x) as [c|] eqn:Hget.
  - assert ((i <? String.length x) = true) as ->.
    { apply Nat.ltb_lt. destruct (decide (String.length x ≤ i)) as [Hle|]; [|lia].
      apply string_get_None in Hle. congruence. }
    cbn [andb]. destruct (indexable i xs); [|done].
    rewrite fmap_cons, Hget. done.
  - apply string_get_None in Hget.
    by rewrite (proj2 (Nat.ltb_ge _ _) Hget).
Qed.

Section GetBatchData.
Context {World : Type} (boto3 : Boto3 World).

(** X13.  When a trade key has fewer than 6 characters, or an entity or
    aspect key fewer than 7, [get_batch_data] raises an IndexError while it
    builds the request: no request is sent and, the error not being a
    ClientError, nothing is logged. *)
Theorem get_batch_data_IndexError t1 l1 t2 l2 t3 l3 w :
  indexable 5 l1 && indexable 6 l2 && indexable 6 l3 = false →
  get_batch_data boto3 t1 l1 t2 l2 t3 l3 w = (Raise IndexError, [], w).
Proof.
  intros Hshort. unfold get_batch_data, bind, lift, get_batch_data_keys.
  rewrite !index_keys_indexable.
  destruct (indexable 5 l1); [|done].
  destruct (indexable 6 l2); [|done].
  destruct (indexable 6 l3); done.
Qed.

(** X14.  The three entries of the request are keyed by table name, so
    equal names collide: when the entity table and the aspect table have the
    same name, the entity keys are dropped and the request is the one an
    empty entity list gives. *)
Theorem get_batch_data_keys_name_collision t1 l1 t2 l2 t3 l3 :
  name t2 = name t3 → indexable 6 l2 = true →
  get_batch_data_keys t1 l1 t2 l2 t3 l3 = get_batch_data_keys t1 l1 t2 [] t3 l3.
Proof.
  intros Hname Hl2. unfold get_batch_data_keys.
  rewrite !index_keys_indexable, Hl2. cbn.
  destruct (indexable 5 l1); [|done].
  destruct (indexable 6 l3); [|done].
  by rewrite Hname, !insert_insert_eq.
Qed.

Lemma log_retrieved_trace (retrieved : gmap string (list (gmap string string)))
    (w : World) r t w' :
  log_retrieved retrieved w = (r, t, w') →
  t = (λ kv, LogInfo "Got %s items from %s."
               [ArgInt (Z.of_nat (length kv.2)); ArgStr kv.1])
      <$> map_to_list retrieved.
Proof.
  unfold log_retrieved. generalize (map_to_list retrieved). intros l.
  revert w r t w'. induction l as [|kv l IH]; intros w r t w'; cbn [for_].
  - by intros (_ & <- & _)%triple_inv.
  - intros Hrun. unfold bind at 1 in Hrun.
    unfold log_info at 1, emit at 1 in Hrun. cbv beta iota in Hrun.
    destruct (for_ l _ w) as [[r' t'] w''] eqn:Hrest.
    apply triple_inv in Hrun as (_ & <- & _). by rewrite (IH _ _ _ _ Hrest).
Qed.

(** X15.  A run of [get_batch_data] that returns logs one
    "Got %s items from %s." record for each table of the result, with the
    number of items retrieved for that table: the records are, up to their
    order, the entries of the returned dictionary. *)
Theorem get_batch_data_logs_every_table t1 l1 t2 l2 t3 l3 w retrieved tr w' :
  get_batch_data boto3 t1 l1 t2 l2 t3 l3 w = (Ok retrieved, tr, w') →
  got_logs tr ≡ₚ (λ kv, [ArgInt (Z.of_nat (length kv.2)); ArgStr kv.1])
                 <$> map_to_list retrieved ∧
  length (got_logs tr) = size retrieved.
Proof.
  intros Hrun. unfold get_batch_data in Hrun.
  apply bind_Ok_inv in Hrun as (batch_keys & t0 & w0 & t & Hkeys & Hrun & ->).
  apply triple_inv in Hkeys as (_ & <- & <-).
  apply try_Ok_inv in Hrun.
  apply bind_Ok_inv in Hrun as (ret & tg & wg & tl & Hget & Hrun & ->).
  apply bind_Ok_inv in Hrun as ([] & tl' & wl & tz & Hlog & Hret & ->).
  apply triple_inv in Hret as ([= ->] & <- & _).
  apply log_retrieved_trace in Hlog as ->.
  assert (got_logs tg = []) as Hquiet.
  { pose proof (omits_do_batch_get_loop
                  (λ e, match e with
                        | LogInfo fmt args =>
                            if String.eqb fmt "Got %s items from %s."
                            then Some args else None
                        | _ => None
                        end)
                  boto3 (S (Z.to_nat max_tries)) 0 1 batch_keys
                  ((λ _, []) <$> batch_keys)) as Homits.
    specialize (Homits ltac:(done) ltac:(done) ltac:(done) ltac:(done) w).
    unfold do_batch_get in Hget. rewrite Hget in Homits. exact Homits. }
  assert (got_logs ((λ kv : string * list (gmap string string),
                       LogInfo "Got %s items from %s."
                         [ArgInt (Z.of_nat (length kv.2)); ArgStr kv.1])
                    <$> map_to_list retrieved)
          = (λ kv, [ArgInt (Z.of_nat (length kv.2)); ArgStr kv.1])
            <$> map_to_list retrieved) as Hlogs.
  { generalize (map_to_list retrieved). intros l.
    induction l as [|kv l IH]; [done|]. cbn. by rewrite <- IH. }
  assert (got_logs ([] ++ tg ++ ((λ kv : string * list (gmap string string),
                       LogInfo "Got %s items from %s."
                         [ArgInt (Z.of_nat (length kv.2)); ArgStr kv.1])
                    <$> map_to_list retrieved) ++ [])
          = (λ kv, [ArgInt (Z.of_nat (length kv.2)); ArgStr kv.1])
            <$> map_to_list retrieved) as ->.
  { cbn [app]. rewrite app_nil_r. unfold got_logs in *.
    by rewrite omap_app, Hquiet, Hlogs. }
  split; [reflexivity|]. by rewrite length_fmap, length_map_to_list.
Qed.

End GetBatchData.

Lemma get_batch_data_IndexError_witness :
  indexable 5 ["12345"] && indexable 6 ["1234567"] && indexable 6 [] = false ∧
  get_batch_data (answering (complete_with ∅))
    (demo_table "trade") ["12345"] (demo_table "entity") ["1234567"]
    (demo_table "aspect") [] 0
  = (Raise IndexError, [], 0).
Proof.
  split; [reflexivity|].
  apply (get_batch_data_IndexError (answering (complete_with ∅))). reflexivity.
Defined.

Lemma get_batch_data_keys_name_collision_witness :
  name (demo_table "entity") = name (demo_table "entity") ∧
  indexable 6 ["0.25000"; "0.50000"] = true ∧
  get_batch_data_keys (demo_table "trade") ["1000000"]
                      (demo_table "entity") ["0.25000"; "0.50000"]
                      (demo_table "entity") ["0.75000"]
  = get_batch_data_keys (demo_table "trade") ["1000000"]
                        (demo_table "entity") []
                        (demo_table "entity") ["0.75000"].
Proof.
  split; [reflexivity|]. split; [reflexivity|].
  apply get_batch_data_keys_name_collision; reflexivity.
Defined.

Lemma get_batch_data_logs_every_table_witness :
  ∃ retrieved tr w',
    get_batch_data (answering (complete_with {[ "trade" := [trade "0"] ]}))
      (demo_table "trade") ["1000000"] (demo_table "entity") ["0.25000"]
      (demo_table "aspect") ["0.75000"] 0
    = (Ok retrieved, tr, w') ∧
    got_logs tr ≡ₚ (λ kv, [ArgInt (Z.of_nat (length kv.2)); ArgStr kv.1])
                   <$> map_to_list retrieved ∧
    length (got_logs tr) = size retrieved.
Proof.
  do 3 eexists. split; [vm_compute; reflexivity|].
  eapply (get_batch_data_logs_every_table
            (answering (complete_with {[ "trade" := [trade "0"] ]}))
            (demo_table "trade") ["1000000"] (demo_table "entity") ["0.25000"]
            (demo_table "aspect") ["0.75000"] 0).
  vm_compute; reflexivity.
Defined.

(** ** [archive_trades]: what has happened before anything is deleted *)

Section ArchiveSafety.
Context {World : Type} (boto3 : Boto3 World).

Abbreviation deleting' :=
  (λ e : event, match e with DeleteItem t k _ => Some (t, k) | _ => None end).

(** A bind either stops with its first part or runs the second after it. *)
Lemma bind_run {A C} (m : M World A) (k : A → M World C) w :
  (∃ a t1 w1, m w = (Ok a, t1, w1) ∧
              trace_of (bind m k w) = t1 ++ trace_of (k a w1) ∧
              result_of (bind m k w) = result_of (k a w1)) ∨
  (trace_of (bind m k w) = trace_of (m w) ∧ ∀ c, result_of (bind m k w) ≠ Ok c).
Proof.
  unfold bind. destruct (m w) as [[[a|e|] t1] w1]; [|by right..].
  left. exists a, t1, w1. split; [done|].
  by destruct (k a w1) as [[r t2] w2].
Qed.




(** The first put block of a run without vendor errors is a complete batch
    writer block. *)
Lemma archive_put_first_clean archive_table trade_data w t w' :
  archive_put_first boto3 archive_table trade_data w = (Ok (), t, w') →
  sdk_failures t = [] →
  t = put_events archive_table trade_data
      ++ [LogInfo "Put trades into %s." [ArgStr (name archive_table)]].
Proof.
  unfold archive_put_first, try_except_ClientError.
  pose proof (propagates_archive_put_all boto3 archive_table trade_data w) as Hbody.
  destruct (archive_put_all boto3 archive_table trade_data w)
    as [[[[]|[c| |]|] t1] w1] eqn:Hput; try done.
  - intros (_ & <- & _)%triple_inv _. by eapply archive_put_all_Ok_inv.
  - unfold faithful, result_of, trace_of in Hbody. cbn [fst snd] in Hbody.
    destruct (String.eqb c "ValidationException"); [|done].
    intros (_ & <- & _)%triple_inv. rewrite sdk_failures_app.
    intros [Hnil _]%app_eq_nil. by rewrite Hnil in Hbody.
Qed.

(** X17.  A run of [archive_trades] that returns without any vendor error
    writes every item of [trade_data] to the archive table twice, once in
    each of the two put blocks, before it deletes them from the source
    table: the whole trace is determined by the inputs and the table the
    SDK created. *)
Theorem archive_trades_puts_twice trade_table trade_data w archive_table tr w' :
  archive_trades boto3 trade_table trade_data w = (Ok archive_table, tr, w') →
  sdk_failures tr = [] →
  ∃ values,
    attr_values "notional" trade_data = Ok values ∧
    tr = [CreateTable (archive_spec trade_table) (Reply archive_table);
          LogInfo "Table %s created, wait until exists."
                  [ArgStr (name archive_table)];
          WaitUntilExists archive_table (Reply ())]
         ++ put_events archive_table trade_data
         ++ [LogInfo "Put trades into %s." [ArgStr (name archive_table)]]
         ++ put_events archive_table trade_data
         ++ [LogInfo "Put trades into %s." [ArgStr (name archive_table)]]
         ++ delete_events trade_table values
         ++ [LogInfo "Deleted trades from %s." [ArgStr (name trade_table)]] ∧
    puts tr = (λ item, (archive_table, item)) <$> (trade_data ++ trade_data).
Proof.
  intros Hrun Hclean.
  apply bind_Ok_inv in Hrun as (created & t0 & w0 & ta & Hcreate & Hrun & ->).
  apply bind_Ok_inv in Hrun as ([] & t1 & w1 & tb & Hfirst & Hrun & ->).
  apply bind_Ok_inv in Hrun as ([] & t2 & w2 & tc & Hsecond & Hrun & ->).
  apply bind_Ok_inv in Hrun as ([] & t3 & w3 & td & Hdelete & Hrun & ->).
  apply triple_inv in Hrun as ([= ->] & <- & _).
  rewrite !sdk_failures_app in Hclean.
  apply app_eq_nil in Hclean as [_ [Hclean1 _]%app_eq_nil].
  apply archive_create_Ok_inv in Hcreate as ->.
  apply (archive_put_first_clean _ _ _ _ _ Hfirst) in Hclean1 as ->.
  apply try_Ok_inv, archive_put_all_Ok_inv in Hsecond as ->.
  apply archive_delete_Ok_inv in Hdelete as (values & Hvalues & ->).
  exists values. split; [done|].
  assert (∀ items, puts (put_events archive_table items)
                   = (λ item, (archive_table, item)) <$> items) as Hputs.
  { intros items. unfold puts, put_events. cbn. rewrite omap_app. cbn.
    rewrite app_nil_r. induction items as [|i items IH]; [done|]. cbn. by rewrite IH. }
  assert (∀ vs, puts (delete_events trade_table vs) = []) as Hdels.
  { intros vs. unfold puts, delete_events. cbn. rewrite omap_app. cbn.
    rewrite app_nil_r. induction vs as [|v vs IH]; [done|]. cbn. by rewrite IH. }
  split.
  - by rewrite app_nil_r, <- !app_assoc.
  - unfold puts in *. rewrite !omap_app, !Hputs, Hdels. cbn.
    by rewrite !app_nil_r, fmap_app.
Qed.

End ArchiveSafety.


Lemma archive_trades_puts_twice_witness :
  let trade_table := demo_table "trades" in
  let trade_data := [trade "a"; trade "b"] in
  ∃ archive_table tr w' values,
    archive_trades (answering (complete_with ∅)) trade_table trade_data 0
      = (Ok archive_table, tr, w') ∧
    sdk_failures tr = [] ∧
    attr_values "notional" trade_data = Ok values ∧
    puts tr = (λ item, (archive_table, item)) <$> (trade_data ++ trade_data).
Proof.
  cbv zeta. do 3 eexists.
  destruct (archive_trades_puts_twice (answering (complete_with ∅))
              (demo_table "trades") [trade "a"; trade "b"] 0 _ _ _
              ltac:(vm_compute; reflexivity) ltac:(vm_compute; reflexivity))
    as (values & Hvalues & _ & Hputs).
  exists values. split; [vm_compute; reflexivity|].
  split; [vm_compute; reflexivity|]. split; [exact Hvalues|exact Hputs].
Defined.

(** ** The service's answers and what is returned *)

(** C2, as stated, fails.  Every response of this service reports an
    unprocessed key, but lists its items under a table that was not
    requested: [do_batch_get] raises a KeyError for that table after a single
    request, not five. *)
Lemma do_batch_get_busy_foreign_table :
  let out := do_batch_get (answering foreign_busy_response) demo_keys 0 in
  forallb reports_unprocessed (replies (trace_of out)) = true ∧
  reports_unprocessed (Reply foreign_busy_response) = true ∧
  result_of out = Raise (KeyError "other") ∧
  length (requests (trace_of out)) = 1 ∧
  length (requests (trace_of out)) ≠ 5.
Proof.
  cbv zeta.
  assert (length (requests (trace_of
            (do_batch_get (answering foreign_busy_response) demo_keys 0))) = 1)
    as Hone by (vm_compute; reflexivity).
  rewrite Hone.
  split; [vm_compute; reflexivity|]. split; [vm_compute; reflexivity|].
  split; [vm_compute; reflexivity|]. split; [done|lia].
Qed.

(** C3, as stated, fails.  The first response of this service reports no
    unprocessed key: its UnprocessedKeys has an entry for a table, with an
    empty list of keys.  [do_batch_get] tests the number of entries, so it
    retries: five requests and four sleeps, not one round trip. *)
Lemma do_batch_get_retries_on_empty_entry :
  let out := do_batch_get (answering empty_entry_response) demo_keys 0 in
  dynamodb_batch_get_item (answering empty_entry_response) demo_keys 0
    = (Reply empty_entry_response, 1) ∧
  unprocessed_count (unprocessed_of empty_entry_response) = 0%Z ∧
  reports_unprocessed (Reply empty_entry_response) = false ∧
  length (requests (trace_of out)) = 5 ∧
  sleeps (trace_of out) = [1; 2; 4; 8]%Z ∧
  requests (trace_of out) ≠ [demo_keys].
Proof.
  cbv zeta. split; [reflexivity|]. split; [vm_compute; reflexivity|].
  split; [vm_compute; reflexivity|]. split; [vm_compute; reflexivity|].
  split; [vm_compute; reflexivity|].
  intros Heq. apply (f_equal length) in Heq. vm_compute in Heq. discriminate.
Qed.

(** C4, as stated, fails.  This response lists items under two tables, one
    of which was not requested: [do_batch_get] raises a KeyError for it and
    returns no accumulator at all. *)
Lemma do_batch_get_unrequested_table :
  let out := do_batch_get (answering foreign_table_response) demo_keys 0 in
  (size <$> Responses foreign_table_response) = Some 2 ∧
  returned_under "trades" foreign_table_response = [trade "a"] ∧
  result_of out = Raise (KeyError "other") ∧
  ∀ retrieved, result_of out ≠ Ok retrieved.
Proof.
  cbv zeta.
  assert (result_of (do_batch_get (answering foreign_table_response) demo_keys 0)
          = Raise (KeyError "other")) as -> by (vm_compute; reflexivity).
  split; [vm_compute; reflexivity|]. split; [vm_compute; reflexivity|]. done.
Qed.

Lemma responses_answered tr : responses tr = answered (replies tr).
Proof.
  unfold responses, answered, replies.
  induction tr as [|e tr IH]; [done|].
  destruct e as [| |req [resp|c]| | | | | | | |]; cbn; rewrite ?IH; reflexivity.
Qed.

Section Dialogue.
Context {World : Type} (boto3 : Boto3 World).

(** When the service's answers are digestible, the loop receives exactly
    the answers of the retry dialogue. *)
Lemma do_batch_get_loop_dialogue fuel tries s
    (keys : gmap string KeysAndAttributes)
    (acc : gmap string (list (gmap string string))) w :
  (max_tries - tries < Z.of_nat fuel)%Z →
  let answers := dialogue boto3 (Z.to_nat (max_tries - tries)) keys w in
  forallb (digestible (dom acc)) answers = true →
  replies (trace_of (do_batch_get_loop boto3 fuel tries s keys acc w)) = answers.
Proof.
  revert tries s keys acc w.
  induction fuel as [|fuel IH]; intros tries s keys acc w Hfuel; cbv zeta.
  { replace (Z.to_nat (max_tries - tries)) with 0 by lia. done. }
  rewrite do_batch_get_loop_unfold.
  destruct (tries <? max_tries)%Z eqn:Htest.
  2:{ apply Z.ltb_ge in Htest.
      replace (Z.to_nat (max_tries - tries)) with 0 by lia. done. }
  apply Z.ltb_lt in Htest.
  replace (Z.to_nat (max_tries - tries))
    with (S (Z.to_nat (max_tries - (tries + 1)))) by lia.
  cbn [dialogue].
  destruct (dynamodb_batch_get_item boto3 keys w) as [[resp|c] w1]; [|done].
  cbv zeta. cbn [forallb digestible].
  intros [[Hnames Hsome%bool_decide_eq_true]%andb_prop Hrest]%andb_prop.
  destruct (collect_Ok resp acc Hnames) as [acc1 Hcollect]. rewrite Hcollect.
  destruct Hsome as [u Hun]. rewrite Hun in Hrest |- *.
  destruct (size u) as [|n] eqn:Hsize.
  { by change (0 <? Z.of_nat 0)%Z with false. }
  assert ((0 <? Z.of_nat (S n))%Z = true) as -> by (apply Z.ltb_lt; lia).
  destruct (do_batch_get_loop _ _ _ _ _ _ _) as [[r' tr'] w2] eqn:Hrec.
  unfold trace_of. cbn [fst snd].
  destruct (observe_attempt keys (Reply resp) tries s u tr') as (_ & -> & _ & _).
  f_equal.
  assert (max_tries - (tries + 1) < Z.of_nat fuel)%Z as Hfuel' by lia.
  rewrite <- (collect_dom _ _ _ Hcollect) in Hrest.
  pose proof (IH (tries + 1)%Z (next_sleepy_time tries s) u acc1 w1 Hfuel') as IH'.
  cbv zeta in IH'. specialize (IH' Hrest).
  by rewrite Hrec in IH'.
Qed.

(** C4, as amended.  When the answers of the service in the retry dialogue
    are digestible (each is a response that has an UnprocessedKeys entry and
    lists items under requested tables only), [do_batch_get] receives exactly
    these answers and returns a dictionary that maps each requested table to
    the concatenation, in order of arrival, of the items the answers listed
    under that very table, and has no other entry. *)
Theorem do_batch_get_partitions_by_table (keys : gmap string KeysAndAttributes) w :
  let answers := dialogue boto3 (Z.to_nat max_tries) keys w in
  let out := do_batch_get boto3 keys w in
  forallb (digestible (dom keys)) answers = true →
  replies (trace_of out) = answers ∧
  ∃ retrieved,
    result_of out = Ok retrieved ∧
    ∀ table, retrieved !! table =
             if decide (table ∈ dom keys)
             then Some (concat (returned_under table <$> answered answers))
             else None.
Proof.
  cbv zeta. intros Hdig.
  assert (replies (trace_of (do_batch_get boto3 keys w))
          = dialogue boto3 (Z.to_nat max_tries) keys w) as Hreplies.
  { unfold do_batch_get.
    pose proof (do_batch_get_loop_dialogue (S (Z.to_nat max_tries)) 0 1 keys
                  ((λ _, []) <$> keys) w) as H.
    cbv zeta in H. rewrite initial_retrieved_dom in H.
    change (max_tries - 0)%Z with max_tries in H. apply H; [cbn; lia|done]. }
  split; [done|].
  rewrite <- Hreplies in Hdig |- *.
  destruct (do_batch_get_returns boto3 keys w Hdig) as [retrieved Hret].
  exists retrieved. split; [done|].
  destruct (do_batch_get boto3 keys w) as [[r tr] w'] eqn:Hrun.
  unfold result_of, trace_of in *. cbn [fst snd] in *. subst r.
  rewrite <- responses_answered.
  by apply (do_batch_get_returned boto3 keys w retrieved tr w').
Qed.

End Dialogue.

Lemma do_batch_get_partitions_by_table_witness :
  let answers := dialogue two_rounds (Z.to_nat max_tries) demo_keys 0 in
  let out := do_batch_get two_rounds demo_keys 0 in
  forallb (digestible (dom demo_keys)) answers = true ∧
  answers = [Reply first_round; Reply second_round] ∧
  replies (trace_of out) = answers ∧
  ∃ retrieved,
    result_of out = Ok retrieved ∧
    ∀ table, retrieved !! table =
             if decide (table ∈ dom demo_keys)
             then Some (concat (returned_under table <$> answered answers))
             else None.
Proof.
  cbv zeta. split; [vm_compute; reflexivity|]. split; [vm_compute; reflexivity|].
  apply (do_batch_get_partitions_by_table two_rounds demo_keys 0).
  vm_compute; reflexivity.
Defined.

(** ** The size of the request of [get_batch_data] *)

(** C5, as stated, fails.  [get_batch_data] called with three lists of 50
    keys builds one request of 150 keys and passes it to [do_batch_get]:
    more than [MAX_GET_SIZE]. *)
Lemma get_batch_data_request_exceeds_MAX_GET_SIZE :
  let trade_list := replicate 50 "1000000" in
  let entity_list := replicate 50 "0.25000" in
  let aspect_list := replicate 50 "0.75000" in
  ∃ batch_keys,
    get_batch_data_keys (demo_table "trade") trade_list
                        (demo_table "entity") entity_list
                        (demo_table "aspect") aspect_list = Ok batch_keys ∧
    requests (trace_of (get_batch_data (answering (complete_with ∅))
                          (demo_table "trade") trade_list
                          (demo_table "entity") entity_list
                          (demo_table "aspect") aspect_list 0)) = [batch_keys] ∧
    total_keys batch_keys = 150 ∧
    ¬ (Z.of_nat (total_keys batch_keys) ≤ MAX_GET_SIZE)%Z.
Proof.
  cbv zeta. eexists.
  split; [vm_compute; reflexivity|]. split; [vm_compute; reflexivity|].
  split; [vm_compute; reflexivity|].
  intros Hle. vm_compute in Hle. by apply Hle.
Qed.

Lemma total_keys_singleton table ks :
  total_keys ({[ table := ks ]} : gmap string KeysAndAttributes) = length (Keys ks).
Proof.
  rewrite <- insert_empty, total_keys_insert by apply lookup_empty.
  unfold total_keys. rewrite map_to_list_empty. cbn. lia.
Qed.

(** The request holds at most the keys of the three lists, and all of them
    when the three tables have different names. *)
Lemma get_batch_data_keys_size t1 l1 t2 l2 t3 l3 batch_keys :
  get_batch_data_keys t1 l1 t2 l2 t3 l3 = Ok batch_keys →
  total_keys batch_keys ≤ length l1 + length l2 + length l3.
Proof.
  unfold get_batch_data_keys.
  destruct (index_keys "notional" 5 l1) as [k1| |] eqn:E1; try done.
  destruct (index_keys "float_value" 6 l2) as [k2| |] eqn:E2; try done.
  destruct (index_keys "float_value" 6 l3) as [k3| |] eqn:E3; try done.
  intros [= <-].
  apply index_keys_length in E1, E2, E3. rewrite <- E1, <- E2, <- E3.
  rewrite insert_empty.
  destruct (decide (name t2 = name t3)) as [E23|N23].
  - rewrite E23, insert_insert_eq.
    destruct (decide (name t1 = name t3)) as [E13|N13].
    + rewrite E13, insert_singleton_eq, total_keys_singleton. cbn. lia.
    + rewrite total_keys_insert by (by rewrite lookup_singleton_ne).
      rewrite total_keys_singleton. cbn. lia.
  - destruct (decide (name t1 = name t2)) as [E12|N12].
    + rewrite E12, insert_singleton_eq.
      rewrite total_keys_insert by (by rewrite lookup_singleton_ne).
      rewrite total_keys_singleton. cbn. lia.
    + destruct (decide (name t1 = name t3)) as [E13|N13].
      * rewrite insert_insert_ne by done.
        rewrite E13, insert_singleton_eq.
        rewrite total_keys_insert by (rewrite lookup_singleton_ne; congruence).
        rewrite total_keys_singleton. cbn. lia.
      * rewrite total_keys_insert
          by (rewrite lookup_insert_ne, lookup_singleton_ne; congruence).
        rewrite total_keys_insert by (by rewrite lookup_singleton_ne).
        rewrite total_keys_singleton. cbn. lia.
Qed.

Section RequestSize.
Context {World : Type} (boto3 : Boto3 World).

Lemma do_batch_get_first_request (keys : gmap string KeysAndAttributes) w :
  ∃ later, requests (trace_of (do_batch_get boto3 keys w)) = keys :: later.
Proof.
  unfold do_batch_get.
  pose proof (do_batch_get_loop_chain boto3 (S (Z.to_nat max_tries)) 0 1 keys
                ((λ _, []) <$> keys) w) as Hchain.
  assert (0 < max_tries)%Z as Htries by done.
  assert (max_tries - 0 < Z.of_nat (S (Z.to_nat max_tries)))%Z as Hfuel by (cbn; lia).
  pose proof (do_batch_get_loop_counts boto3 (S (Z.to_nat max_tries)) 0 1 keys
                ((λ _, []) <$> keys) w Htries Hfuel) as [Hlen _].
  cbv zeta in Hchain. destruct (requests _) as [|req reqs]; [done|].
  apply prefix_cons_inv_1 in Hchain as ->. by exists reqs.
Qed.

Lemma try_run {A} (body : M World A) (handler : string → M World A) w :
  ∃ rest, trace_of (try_except_ClientError body handler w)
          = trace_of (body w) ++ rest.
Proof.
  unfold try_except_ClientError.
  destruct (body w) as [[[a|[c| |]|] t1] w1];
    try (exists []; unfold trace_of; cbn; by rewrite app_nil_r).
  destruct (handler c w1) as [[r t2] w2]. by exists t2.
Qed.

(** C5, as amended.  [get_batch_data] checks no size: when all keys can be
    indexed, it builds one request out of its three key lists and passes it
    to [do_batch_get] as the first request.  The request holds at most
    [len(trade_list) + len(entity_list) + len(aspect_list)] keys, and exactly
    that many when the three tables have different names, so it stays within
    [MAX_GET_SIZE] whenever the caller passes at most 100 keys in all. *)
Theorem get_batch_data_request_size t1 l1 t2 l2 t3 l3 w :
  indexable 5 l1 && indexable 6 l2 && indexable 6 l3 = true →
  ∃ batch_keys,
    get_batch_data_keys t1 l1 t2 l2 t3 l3 = Ok batch_keys ∧
    head (requests (trace_of (get_batch_data boto3 t1 l1 t2 l2 t3 l3 w)))
      = Some batch_keys ∧
    total_keys batch_keys ≤ length l1 + length l2 + length l3 ∧
    (name t1 ≠ name t2 → name t1 ≠ name t3 → name t2 ≠ name t3 →
     total_keys batch_keys = length l1 + length l2 + length l3) ∧
    ((Z.of_nat (length l1 + length l2 + length l3) ≤ MAX_GET_SIZE)%Z →
     (Z.of_nat (total_keys batch_keys) ≤ MAX_GET_SIZE)%Z).
Proof.
  intros Hix.
  assert (∃ batch_keys, get_batch_data_keys t1 l1 t2 l2 t3 l3 = Ok batch_keys)
    as [batch_keys Hkeys].
  { unfold get_batch_data_keys. rewrite !index_keys_indexable.
    apply andb_prop in Hix as [[-> ->]%andb_prop ->]. by eexists. }
  exists batch_keys. split; [done|].
  pose proof (get_batch_data_keys_size _ _ _ _ _ _ _ Hkeys) as Hle.
  split; [|split; [done|split; [|lia]]].
  - unfold get_batch_data, bind at 1, lift. rewrite Hkeys.
    destruct (try_run
                (bind (do_batch_get boto3 batch_keys)
                      (λ retrieved, bind (log_retrieved retrieved)
                                         (λ _, ret retrieved)))
                (λ code, bind (log_exception "Couldn't get items from %s and %s."
                                 [ArgStr (name t1); ArgStr (name t2);
                                  ArgStr (name t3)])
                              (λ _, raise (ClientError code))) w) as [rest Htry].
    destruct (try_except_ClientError _ _ w) as [[r t] w'].
    unfold trace_of in Htry |- *. cbn [fst snd] in Htry |- *. subst t.
    destruct (do_batch_get_first_request batch_keys w) as [later Hfirst].
    destruct (bind_run (do_batch_get boto3 batch_keys)
                (λ retrieved, bind (log_retrieved retrieved) (λ _, ret retrieved)) w)
      as [(a & t1' & w1 & Hget & Htr & _)|[Htr _]].
    + unfold trace_of in Htr. rewrite Htr.
      rewrite Hget in Hfirst. unfold trace_of in Hfirst. cbn [fst snd] in Hfirst.
      cbn [app]. unfold requests in *. rewrite !omap_app, Hfirst. done.
    + unfold trace_of in Htr. rewrite Htr.
      unfold trace_of in Hfirst.
      cbn [app]. unfold requests in *. rewrite omap_app, Hfirst. done.
  - intros N12 N13 N23.
    by apply (get_batch_data_keys_total t1 l1 t2 l2 t3 l3).
Qed.

End RequestSize.

Lemma get_batch_data_request_size_witness :
  let l1 := ["1000000"; "2000000"] in
  let l2 := ["0.25000"] in
  let l3 := ["0.75000"; "0.50000"; "0.12500"] in
  indexable 5 l1 && indexable 6 l2 && indexable 6 l3 = true ∧
  ∃ batch_keys,
    get_batch_data_keys (demo_table "trade") l1 (demo_table "entity") l2
                        (demo_table "aspect") l3 = Ok batch_keys ∧
    head (requests (trace_of (get_batch_data (answering (complete_with ∅))
                                (demo_table "trade") l1 (demo_table "entity") l2
                                (demo_table "aspect") l3 0)))
      = Some batch_keys ∧
    total_keys batch_keys ≤ length l1 + length l2 + length l3 ∧
    (name (demo_table "trade") ≠ name (demo_table "entity") →
     name (demo_table "trade") ≠ name (demo_table "aspect") →
     name (demo_table "entity") ≠ name (demo_table "aspect") →
     total_keys batch_keys = length l1 + length l2 + length l3) ∧
    ((Z.of_nat (length l1 + length l2 + length l3) ≤ MAX_GET_SIZE)%Z →
     (Z.of_nat (total_keys batch_keys) ≤ MAX_GET_SIZE)%Z).
Proof.
  cbv zeta. split; [reflexivity|].
  apply (get_batch_data_request_size (answering (complete_with ∅))
           (demo_table "trade") ["1000000"; "2000000"]
           (demo_table "entity") ["0.25000"]
           (demo_table "aspect") ["0.75000"; "0.50000"; "0.12500"] 0).
  reflexivity.
Defined.
